(** * The assistant orchestration layer: transcripts, turns, replies, audio frames

    A shallow embedding of the orchestration file of the repository (session
    bookkeeping, transcript gate, reply orchestration, synthesis queue, audio
    frame assembly), followed by the properties of these functions.  The
    repository holds two copies of this file.  The definitions at top level
    follow the copy whose text-message handler passes the text through
    [handleCartesiaTranscript]; the functions that the other copy (the one with
    [shouldGenerateResponse]) writes differently are embedded in
    [Module Revised].  The copy followed here calls [getSystemPrompt] without
    binding the name, so the binding is a parameter of the embedding, an
    optional function; the statements about the file as it stands take the
    binding [unbound]. *)

From Stdlib Require Import ZArith NArith Arith List Bool Lia Ascii.
From Stdlib Require String DecimalPos.
Import String.StringSyntax.
Delimit Scope string_scope with string.
From Stdlib.Strings Require Import Byte.
From Equations Require Import Equations.
Import ListNotations.

(** ** JavaScript strings

    A JavaScript string is a sequence of UTF-16 code units; [length] is the
    [.length] of the string and equality of lists is [===]. *)

Module Js.

Definition str := list N.

(** A string literal of the source, for the code units below 256. *)
Definition lit (s : String.string) : str :=
  map N_of_ascii (String.list_ascii_of_string s).

Arguments lit s%_string.

Definition str_eq_dec (a b : str) : {a = b} + {a <> b} := list_eq_dec N.eq_dec a b.

Definition eqb (a b : str) : bool := if str_eq_dec a b then true else false.

(** Truthiness of a string: every string but the empty one. *)
Definition truthy (s : str) : bool :=
  match s with [] => false | _ :: _ => true end.

(** The class [\s] of regular expressions, which is also what [trim] strips
    (WhiteSpace and LineTerminator of ECMAScript). *)
Definition isWhiteSpace (c : N) : bool :=
  ((9 <=? c) && (c <=? 13) || (c =? 32) || (c =? 160) || (c =? 5760)
   || (8192 <=? c) && (c <=? 8202) || (c =? 8232) || (c =? 8233)
   || (c =? 8239) || (c =? 8287) || (c =? 12288) || (c =? 65279))%N.

Fixpoint trimStart (s : str) : str :=
  match s with
  | [] => []
  | c :: r => if isWhiteSpace c then trimStart r else s
  end.

Definition trimEnd (s : str) : str := rev (trimStart (rev s)).

Definition trim (s : str) : str := trimEnd (trimStart s).

(** [s.replace(/\s+/g, ' ')]: every maximal run of white space becomes one
    space.  [inRun] tells that the previous code unit was white space. *)
Fixpoint collapseFrom (inRun : bool) (s : str) : str :=
  match s with
  | [] => []
  | c :: r =>
      if isWhiteSpace c
      then (if inRun then collapseFrom true r else 32%N :: collapseFrom true r)
      else c :: collapseFrom false r
  end.

Definition replaceWhiteSpaceRuns (s : str) : str := collapseFrom false s.

(** [Number.prototype.toString] on a non-negative integer. *)
Fixpoint digits (u : Decimal.uint) : str :=
  match u with
  | Decimal.Nil => []
  | Decimal.D0 r => 48%N :: digits r
  | Decimal.D1 r => 49%N :: digits r
  | Decimal.D2 r => 50%N :: digits r
  | Decimal.D3 r => 51%N :: digits r
  | Decimal.D4 r => 52%N :: digits r
  | Decimal.D5 r => 53%N :: digits r
  | Decimal.D6 r => 54%N :: digits r
  | Decimal.D7 r => 55%N :: digits r
  | Decimal.D8 r => 56%N :: digits r
  | Decimal.D9 r => 57%N :: digits r
  end.

Definition toString (n : N) : str := digits (N.to_uint n).

(** A value received where the source tests [typeof v === 'string']. *)
Inductive value :=
| VString (s : str)
| VOther (isTruthy : bool).

End Js.

Import Js.

(** ** Data of the module *)

Record ConversationTurn := {
  timestamp : N;
  transcription : str;
  ai_response : str;
}.

Record SessionState := {
  customPrompt : str;
  googleSearchEnabled : bool;
  geminiApiKey : option str;
  active : bool;
}.

(** What [sendToRenderer] is called with: the channel is the constructor, the
    data its arguments.  The transport (the first browser window, when there is
    one) is Electron's. *)
Inductive RendererMessage :=
| UpdateStatus (text : str)
| UpdateResponse (reply : str)
| SaveConversationTurn (sessionId : option str) (turn : ConversationTurn)
    (fullHistory : list ConversationTurn).

(** [ttsQueue]: a promise, either [Promise.resolve()] or a promise obtained
    by chaining one more synthesis on the previous value of the queue. *)
Inductive Promise :=
| Resolved
| Chained (previous : Promise) (text : str).

Inductive Role := User | Assistant.

Record HistoryEntry := { role : Role; content : str }.

(** The arguments of [cerebrasService.generateReply]. *)
Record GenerateRequest := {
  context : str;
  history : list HistoryEntry;
  systemPrompt : str;
}.

(** How the awaited [generateReply] settles: with a string or with nothing, or
    by rejecting. *)
Inductive ReplyOutcome :=
| Fulfils (reply : option str)
| Rejects.

(** [getSystemPrompt(profile, customPrompt, googleSearchEnabled)] of the
    prompts module, where a module scope or the global object binds the name. *)
Definition PromptFunction := str -> str -> bool -> str.

(** The message of the [ReferenceError] thrown when an identifier that
    nothing binds is evaluated. *)
Definition notDefined (identifier : str) : str := identifier ++ lit " is not defined".

(** Where the synchronous part of [respondWithCerebras] ends: at a throw,
    which rejects the promise of the call with an error of that message, or at
    the [await] of [cerebrasService.generateReply]. *)
Inductive ReplyCall :=
| Thrown (message : str)
| Awaiting (request : GenerateRequest).

(** The value a handler returns to the renderer: [{ success: true }] or
    [{ success: false, error }]. *)
Inductive IpcResult :=
| Success
| Failure (error : str).

(** A [Set] of strings keeps its elements in insertion order. *)
Definition setHas (x : str) (l : list str) : bool := existsb (eqb x) l.

Definition setAdd (x : str) (l : list str) : list str :=
  if setHas x l then l else l ++ [x].

Fixpoint setDelete (x : str) (l : list str) : list str :=
  match l with
  | [] => []
  | y :: r => if eqb x y then r else y :: setDelete x r
  end.

(** The module-level variables, together with the messages sent to the
    renderer so far (oldest first) and the number of [Date.now()] calls. *)
Record State := {
  currentSessionId : option str;
  conversationHistory : list ConversationTurn;
  sessionState : SessionState;
  lastProcessedTranscript : str;
  recentTranscripts : list str;
  ttsQueue : Promise;
  sent : list RendererMessage;
  clockReads : nat;
}.

Definition set_sent (m : list RendererMessage) (s : State) : State :=
  {| currentSessionId := currentSessionId s;
     conversationHistory := conversationHistory s;
     sessionState := sessionState s;
     lastProcessedTranscript := lastProcessedTranscript s;
     recentTranscripts := recentTranscripts s;
     ttsQueue := ttsQueue s;
     sent := m;
     clockReads := clockReads s |}.

Definition set_ttsQueue (q : Promise) (s : State) : State :=
  {| currentSessionId := currentSessionId s;
     conversationHistory := conversationHistory s;
     sessionState := sessionState s;
     lastProcessedTranscript := lastProcessedTranscript s;
     recentTranscripts := recentTranscripts s;
     ttsQueue := q;
     sent := sent s;
     clockReads := clockReads s |}.

Definition set_conversationHistory (h : list ConversationTurn) (s : State) : State :=
  {| currentSessionId := currentSessionId s;
     conversationHistory := h;
     sessionState := sessionState s;
     lastProcessedTranscript := lastProcessedTranscript s;
     recentTranscripts := recentTranscripts s;
     ttsQueue := ttsQueue s;
     sent := sent s;
     clockReads := clockReads s |}.

Definition set_dedup (last : str) (recent : list str) (s : State) : State :=
  {| currentSessionId := currentSessionId s;
     conversationHistory := conversationHistory s;
     sessionState := sessionState s;
     lastProcessedTranscript := last;
     recentTranscripts := recent;
     ttsQueue := ttsQueue s;
     sent := sent s;
     clockReads := clockReads s |}.

(** [!currentSessionId] is false exactly for a non-empty string. *)
Definition hasSession (s : State) : bool :=
  match currentSessionId s with
  | Some id => truthy id
  | None => false
  end.

Section Orchestration.

(** [Date.now()]: the n-th call returns [clock n]. *)
Variable clock : nat -> N.

(** What the identifier [getSystemPrompt] is bound to where
    [respondWithCerebras] evaluates it.  This copy of the file neither declares
    nor requires the name (the [require] line that the other copy has is
    replaced by the comment [// Removed prompts dependency]), so the name is
    looked up on the global object: [None] when nothing is bound there, which is
    the file as it stands and the binding [unbound] below, [Some prompt] when a
    global of that name has been put there from outside. *)
Variable getSystemPrompt : option PromptFunction.

(** How [cerebrasService.generateReply] answers a request. *)
Variable generateReply : GenerateRequest -> ReplyOutcome.

Definition dateNow (s : State) : N * State :=
  (clock (clockReads s),
   {| currentSessionId := currentSessionId s;
      conversationHistory := conversationHistory s;
      sessionState := sessionState s;
      lastProcessedTranscript := lastProcessedTranscript s;
      recentTranscripts := recentTranscripts s;
      ttsQueue := ttsQueue s;
      sent := sent s;
      clockReads := S (clockReads s) |}).

Definition sendToRenderer (m : RendererMessage) (s : State) : State :=
  set_sent (sent s ++ [m]) s.

Definition initializeNewSession (s : State) : State :=
  let (now, s1) := dateNow s in
  {| currentSessionId := Some (toString now);
     conversationHistory := [];
     sessionState := sessionState s1;
     lastProcessedTranscript := [];
     recentTranscripts := [];
     ttsQueue := ttsQueue s1;
     sent := sent s1;
     clockReads := clockReads s1 |}.

Definition saveConversationTurn (transcription0 aiResponse : str) (s : State) : State :=
  let s1 := if hasSession s then s else initializeNewSession s in
  let (now, s2) := dateNow s1 in
  let conversationTurn :=
    {| timestamp := now;
       transcription := trim transcription0;
       ai_response := trim aiResponse |} in
  let s3 := set_conversationHistory (conversationHistory s2 ++ [conversationTurn]) s2 in
  sendToRenderer
    (SaveConversationTurn (currentSessionId s3) conversationTurn (conversationHistory s3))
    s3.

(** *** Reply generation *)

Definition buildCerebrasHistory (s : State) : list HistoryEntry :=
  flat_map
    (fun turn =>
       (if truthy (transcription turn)
        then [{| role := User; content := transcription turn |}] else [])
       ++
       (if truthy (ai_response turn)
        then [{| role := Assistant; content := ai_response turn |}] else []))
    (conversationHistory s).

(** [queueTtsSynthesis]: the new value of [ttsQueue] is
    [ttsQueue.catch(() => {}).then(async () => { try { await synthesize(trimmed) } catch { } })]. *)
Definition queueTtsSynthesis (text : value) (s : State) : State :=
  let trimmed := match text with VString t => trim t | VOther _ => [] end in
  if length trimmed <? 12 then s
  else set_ttsQueue (Chained (ttsQueue s) trimmed) s.

(** [respondWithCerebras] up to its [await].  The history is built first;
    then [getSystemPrompt] is evaluated, outside the [try]: with no binding this
    throws a [ReferenceError] before anything is sent and before
    [cerebrasService.generateReply] is called; with a binding the status
    [Responding...] is sent and the request is handed to the generator. *)
Definition respondWithCerebras_request (transcript : str) (searchSummary : option str)
    (s : State) : State * ReplyCall :=
  let history := buildCerebrasHistory s in
  match getSystemPrompt with
  | None => (s, Thrown (notDefined (lit "getSystemPrompt")))
  | Some prompt =>
      let systemPrompt :=
        prompt (lit "default") (customPrompt (sessionState s))
          (googleSearchEnabled (sessionState s)) in
      let context :=
        match searchSummary with
        | Some summary =>
            if truthy summary
            then transcript ++ [10; 10]%N ++ lit "Web search context:" ++ [10]%N ++ summary
            else transcript
        | None => transcript
        end in
      let s1 := sendToRenderer (UpdateStatus (lit "Responding...")) s in
      (s1, Awaiting {| context := context; history := history;
                       systemPrompt := systemPrompt |})
  end.

(** [respondWithCerebras] from the point where the awaited call settles, in
    the state the module has at that moment: the [try] block after the [await]
    and its [catch]. *)
Definition respondWithCerebras_resume (transcript : str) (outcome : ReplyOutcome)
    (s : State) : State :=
  match outcome with
  | Fulfils (Some reply) =>
      if truthy reply then
        let s1 := sendToRenderer (UpdateResponse reply) s in
        let s2 := saveConversationTurn transcript reply s1 in
        let s3 := queueTtsSynthesis (VString reply) s2 in
        sendToRenderer (UpdateStatus (lit "Listening...")) s3
      else sendToRenderer (UpdateStatus (lit "Listening...")) s
  | Fulfils None => sendToRenderer (UpdateStatus (lit "Listening...")) s
  | Rejects => sendToRenderer (UpdateStatus (lit "Listening...")) s
  end.

(** The call as a whole when nothing else runs while it waits: the state it
    leaves and, when its promise rejects, the message of the error. *)
Definition respondWithCerebras (transcript : str) (searchSummary : option str)
    (s : State) : State * option str :=
  match respondWithCerebras_request transcript searchSummary s with
  | (s1, Thrown message) => (s1, Some message)
  | (s1, Awaiting request) =>
      (respondWithCerebras_resume transcript (generateReply request) s1, None)
  end.

(** *** The transcript gate *)

Definition cleanTranscript (rawTranscript : value) : str :=
  match rawTranscript with
  | VString raw => trim (replaceWhiteSpaceRuns raw)
  | VOther _ => []
  end.

(** The eviction step: [if (recentTranscripts.size > 12) { ... delete(first) }]. *)
Definition evictOldest (recent : list str) : list str :=
  if 12 <? length recent then
    match recent with
    | first :: _ => if truthy first then setDelete first recent else recent
    | [] => recent
    end
  else recent.

(** [handleCartesiaTranscript] up to the [await] of [respondWithCerebras]:
    the new state and, when the gate let the transcript through, the cleaned
    transcript and the way the call of [respondWithCerebras] went. *)
Definition handleCartesiaTranscript_request (rawTranscript : value) (s : State)
    : State * option (str * ReplyCall) :=
  if negb (active (sessionState s)) then (s, None)
  else
    let cleaned := cleanTranscript rawTranscript in
    if negb (truthy cleaned) || (length cleaned <? 4) then (s, None)
    else if eqb cleaned (lastProcessedTranscript s) then (s, None)
    else if setHas cleaned (recentTranscripts s) then (s, None)
    else
      let recent := setAdd cleaned (evictOldest (recentTranscripts s)) in
      let s1 := set_dedup cleaned recent s in
      let s2 := saveConversationTurn cleaned [] s1 in
      let (s3, call) := respondWithCerebras_request cleaned None s2 in
      (s3, Some (cleaned, call)).

(** The whole call: an error thrown by [respondWithCerebras] is caught and
    logged by the [try] around its [await]. *)
Definition handleCartesiaTranscript (rawTranscript : value) (s : State) : State :=
  match handleCartesiaTranscript_request rawTranscript s with
  | (s1, None) => s1
  | (s1, Some (cleaned, Thrown _)) => s1
  | (s1, Some (cleaned, Awaiting request)) =>
      respondWithCerebras_resume cleaned (generateReply request) s1
  end.

(** *** The handlers of the renderer's requests *)

(** [ipcMain.handle('send-text-message', ...)]. *)
Definition sendTextMessage (text : value) (s : State) : IpcResult * State :=
  if negb (active (sessionState s)) then (Failure (lit "No active session"), s)
  else
    match text with
    | VString t =>
        if negb (truthy t) || (length (trim t) =? 0)
        then (Failure (lit "Invalid text message"), s)
        else (Success, handleCartesiaTranscript text s)
    | VOther _ => (Failure (lit "Invalid text message"), s)
    end.

End Orchestration.

(** ** The synthesis queue as a promise chain *)

(** How one call of [cartesiaSpeechService.synthesizeSpeechToFile] ends: with
    a file path or [null], or by throwing. *)
Inductive SynthesisOutcome :=
| AudioPath (path : option str)
| SynthesisThrows.

Inductive TtsEvent :=
| SynthesisStarted (text : str)
| SynthesisSettled (text : str) (outcome : SynthesisOutcome).

Inductive Settlement := Fulfilled | Rejected.

Section SynthesisQueue.

(** The outcome of the n-th synthesis call, on the text it is given. *)
Variable synthesizeSpeechToFile : nat -> str -> SynthesisOutcome.

(** [p.catch(() => {})]: the handler returns [undefined], so the result is
    fulfilled whichever way [p] settles. *)
Definition catchIgnoring (p : Settlement) : Settlement :=
  match p with
  | Fulfilled => Fulfilled
  | Rejected => Fulfilled
  end.

Definition startedCalls (events : list TtsEvent) : nat :=
  length (filter (fun e => match e with SynthesisStarted _ => true | _ => false end) events).

(** The body of the chained callback:
    [try { await synthesizeSpeechToFile(trimmed) } catch (error) { console.error(...) }]. *)
Definition synthesisTask (calls : nat) (trimmed : str) : Settlement * list TtsEvent :=
  let outcome := synthesizeSpeechToFile calls trimmed in
  let settlement :=
    match outcome with
    | AudioPath _ => Fulfilled
    | SynthesisThrows => Fulfilled
    end in
  (settlement, [SynthesisStarted trimmed; SynthesisSettled trimmed outcome]).

(** [p.then(callback)]: the callback runs once [p] is fulfilled, after
    everything [p] stands for has happened; a rejected [p] skips it. *)
Definition thenCall (p : Settlement) (events : list TtsEvent)
    (callback : nat -> Settlement * list TtsEvent) : Settlement * list TtsEvent :=
  match p with
  | Fulfilled =>
      let (r, more) := callback (startedCalls events) in (r, events ++ more)
  | Rejected => (Rejected, events)
  end.

(** How a value of [ttsQueue] settles, and the synthesis events that happen
    until then, in order. *)
Fixpoint settle (q : Promise) : Settlement * list TtsEvent :=
  match q with
  | Resolved => (Fulfilled, [])
  | Chained previous text =>
      let (r, events) := settle previous in
      thenCall (catchIgnoring r) events (fun calls => synthesisTask calls text)
  end.

End SynthesisQueue.

(** ** Audio capture: frames and downmix *)

Definition Buffer := list byte.

#[local] Set Warnings "-abstract-large-number".

Definition DEFAULT_SAMPLE_RATE : nat := 24000.
Definition CHANNELS : nat := 2.
Definition BYTES_PER_SAMPLE : nat := 2.

(** [DEFAULT_SAMPLE_RATE * BYTES_PER_SAMPLE * CHANNELS * CHUNK_DURATION] with
    [CHUNK_DURATION = 0.1]: the product [96000 * 0.1] is the double 9600. *)
Definition CHUNK_SIZE : nat := DEFAULT_SAMPLE_RATE * BYTES_PER_SAMPLE * CHANNELS / 10.

(** [DEFAULT_SAMPLE_RATE * BYTES_PER_SAMPLE * 1]. *)
Definition maxBufferSize : nat := DEFAULT_SAMPLE_RATE * BYTES_PER_SAMPLE * 1.

Definition byteOfZ (z : Z) : byte :=
  match Byte.of_N (Z.to_N (z mod 256)) with
  | Some b => b
  | None => x00
  end.

(** The signed 16-bit integer of two bytes, low byte first. *)
Definition int16OfBytes (lo hi : byte) : Z :=
  let u := (Z.of_N (Byte.to_N lo) + 256 * Z.of_N (Byte.to_N hi))%Z in
  if (u <? 32768)%Z then u else (u - 65536)%Z.

(** [buf.readInt16LE(offset)]; [None] stands for the [RangeError]. *)
Definition readInt16LE (buf : Buffer) (offset : nat) : option Z :=
  match nth_error buf offset, nth_error buf (S offset) with
  | Some lo, Some hi => Some (int16OfBytes lo hi)
  | _, _ => None
  end.

Fixpoint setByte (buf : Buffer) (index : nat) (b : byte) : Buffer :=
  match buf, index with
  | [], _ => []
  | _ :: rest, 0 => b :: rest
  | x :: rest, S i => x :: setByte rest i b
  end.

(** [buf.writeInt16LE(value, offset)]; [None] stands for the [RangeError]
    (value outside the signed 16-bit range, or offset out of range). *)
Definition writeInt16LE (buf : Buffer) (value : Z) (offset : nat) : option Buffer :=
  if ((-32768 <=? value)%Z && (value <=? 32767)%Z && (offset + 2 <=? length buf))%bool
  then Some (setByte (setByte buf offset (byteOfZ value)) (S offset) (byteOfZ (value / 256)))
  else None.

(** [Buffer.alloc(size)]. *)
Definition alloc (size : nat) : Buffer := repeat x00 size.

(** The loop of [convertStereoToMono], [count] iterations from index [i]. *)
Fixpoint convertLoop (count i : nat) (stereoBuffer monoBuffer : Buffer) : option Buffer :=
  match count with
  | 0 => Some monoBuffer
  | S count' =>
      match readInt16LE stereoBuffer (i * 4) with
      | None => None
      | Some leftSample =>
          match writeInt16LE monoBuffer leftSample (i * 2) with
          | None => None
          | Some monoBuffer' => convertLoop count' (S i) stereoBuffer monoBuffer'
          end
      end
  end.

(** [convertStereoToMono].  [samples = length / 4] is a quotient of numbers:
    the loop runs for every [i < samples], that is [ceil(length / 4)] times, and
    the allocation truncates [samples * 2] to [floor(length / 2)]. *)
Definition convertStereoToMono (stereoBuffer : Buffer) : option Buffer :=
  let iterations := (length stereoBuffer + 3) / 4 in
  let monoBuffer := alloc (length stereoBuffer / 2) in
  convertLoop iterations 0 stereoBuffer monoBuffer.

Lemma CHUNK_SIZE_pos : 0 < CHUNK_SIZE.
Proof. apply Nat.ltb_lt. vm_compute. reflexivity. Qed.

Section FrameLoop.

(** [Buffer.prototype.toString('base64')]. *)
Variable toBase64 : Buffer -> str.

(** The frame size of the loop, [CHUNK_SIZE] in the listener below. *)
Variable chunkSize : nat.
Hypothesis chunkSize_pos : 0 < chunkSize.

(** The [while] loop of the ['data'] listener on [audioBuffer]: the strings
    handed to [enqueueBase64Audio], the buffer left, and whether the loop ended
    normally ([false]: an exception left the listener). *)
Equations? drain (buffered : Buffer) : list str * Buffer * bool
  by wf (length buffered) lt :=
  drain buffered with le_lt_dec chunkSize (length buffered) => {
    | left _ with convertStereoToMono (firstn chunkSize buffered) => {
        | Some monoChunk with drain (skipn chunkSize buffered) => {
            | (out, rest, ok) => (toBase64 monoChunk :: out, rest, ok) };
        | None => ([], skipn chunkSize buffered, false) };
    | right _ => ([], buffered, true) }.
Proof.
  rewrite length_skipn. lia.
Qed.

End FrameLoop.

Arguments drain toBase64 {chunkSize} chunkSize_pos buffered.

Section Capture.

Variable toBase64 : Buffer -> str.

(** The variables of [startMacOSAudioCapture] that outlive one event. *)
Record Capture := {
  audioBuffer : Buffer;
  enqueued : list str;
}.

(** The ['data'] listener of the capture process's standard output. *)
Definition onData (data : Buffer) (c : Capture) : Capture :=
  let '(out, rest, ok) := drain toBase64 CHUNK_SIZE_pos (audioBuffer c ++ data) in
  let kept :=
    if ok then
      (if maxBufferSize <? length rest
       then skipn (length rest - maxBufferSize) rest
       else rest)
    else rest in
  {| audioBuffer := kept; enqueued := enqueued c ++ out |}.

Definition startCapture : Capture := {| audioBuffer := alloc 0; enqueued := [] |}.

(** The listener run on the chunks of the stream, in arrival order. *)
Definition feed (chunks : list Buffer) (c : Capture) : Capture :=
  fold_left (fun c data => onData data c) chunks c.

End Capture.

(** ** The other copy of the file

    The functions that the second copy of the orchestration file writes
    differently: the downmix, and the decision whether a transcript gets a
    reply. *)

Module Revised.

(** [Math.round(numerator / 2)] for an integer numerator: halves go up. *)
Definition roundHalf (numerator : Z) : Z := ((numerator + 1) / 2)%Z.

Definition monoSampleOf (leftSample rightSample : Z) : Z :=
  Z.max (-32768) (Z.min 32767 (roundHalf (leftSample + rightSample))).

Fixpoint convertLoop (count i : nat) (stereoBuffer monoBuffer : Buffer) : option Buffer :=
  match count with
  | 0 => Some monoBuffer
  | S count' =>
      match readInt16LE stereoBuffer (i * 4) with
      | None => None
      | Some leftSample =>
          match readInt16LE stereoBuffer (i * 4 + 2) with
          | None => None
          | Some rightSample =>
              match writeInt16LE monoBuffer (monoSampleOf leftSample rightSample) (i * 2) with
              | None => None
              | Some monoBuffer' => convertLoop count' (S i) stereoBuffer monoBuffer'
              end
          end
      end
  end.

Definition convertStereoToMono (stereoBuffer : Buffer) : option Buffer :=
  let iterations := (length stereoBuffer + 3) / 4 in
  let monoBuffer := alloc (length stereoBuffer / 2) in
  convertLoop iterations 0 stereoBuffer monoBuffer.

(** [const monoChunk = CHANNELS === 2 ? convertStereoToMono(chunk) : chunk],
    with [CHANNELS] read from the environment. *)
Definition monoChunkOf (channels : nat) (chunk : Buffer) : option Buffer :=
  if channels =? 2 then convertStereoToMono chunk else Some chunk.

(** The regular expressions of [shouldGenerateResponse], by position in their
    arrays. *)
Inductive Pattern :=
| Announcement (index : nat)
| Acknowledgment (index : nat).

Definition announcementPatterns : list Pattern := map Announcement (seq 0 5).
Definition acknowledgmentPatterns : list Pattern := map Acknowledgment (seq 0 4).

Definition trivialPhrases : list str :=
  [lit "ok"; lit "yes"; lit "no"; lit "uh"; lit "um"; lit "well"; lit "right";
   lit "alright"; lit "hello"; lit "hi"; lit "thank you"; lit "thanks"; lit "bye";
   lit "goodbye"; lit "see you"; lit "next"; lit "continue"; lit "ready"; lit "go";
   lit "start"; lit "stop"; lit "pause"; lit "time"; lit "minutes"; lit "seconds";
   lit "hour"; lit "late"; lit "early"; lit "good"; lit "bad"; lit "fine";
   lit "great"; lit "excellent"].

(** [transcript.split(/\s+/).filter(w => w.length > 0)]: the maximal runs of
    code units that are not white space.  [current] is the run being read,
    reversed. *)
Fixpoint wordsFrom (current : str) (s : str) : list str :=
  match s with
  | [] => match current with [] => [] | _ => [rev current] end
  | c :: r =>
      if isWhiteSpace c
      then match current with
           | [] => wordsFrom [] r
           | _ => rev current :: wordsFrom [] r
           end
      else wordsFrom (c :: current) r
  end.

Definition words (transcript : str) : list str := wordsFrom [] transcript.

Section Classifier.

(** [pattern.test(text)], for the patterns above. *)
Variable regexTest : Pattern -> str -> bool.

(** [String.prototype.toLowerCase]. *)
Variable toLowerCase : str -> str.

(** [shouldGenerateResponse(transcript, options)], with [options.isManual]
    and [sessionState.autoResponseEnabled] as they are read. *)
Definition shouldGenerateResponse (transcript : str) (isManual : bool)
    (autoResponseEnabled : bool) : bool :=
  if isManual then true
  else if negb autoResponseEnabled then false
  else if (length (words transcript) <=? 3)
          && existsb (eqb (trim (toLowerCase transcript))) trivialPhrases
  then false
  else if length transcript <? 15 then false
  else if existsb (fun pattern => regexTest pattern transcript) announcementPatterns
  then false
  else if existsb (fun pattern => regexTest pattern (trim transcript)) acknowledgmentPatterns
  then false
  else true.

End Classifier.

End Revised.

(** ** States and outcomes used in the statements *)

(** The module as it is loaded: no session, nothing sent. *)
Definition initialState : State :=
  {| currentSessionId := None;
     conversationHistory := [];
     sessionState := {| customPrompt := []; googleSearchEnabled := true;
                        geminiApiKey := None; active := false |};
     lastProcessedTranscript := [];
     recentTranscripts := [];
     ttsQueue := Resolved;
     sent := [];
     clockReads := 0 |}.

(** The session part of the ['initialize-gemini'] handler: the session state
    is marked active, then [initializeNewSession] runs. *)
Definition activate (clock : nat -> N) (s : State) : State :=
  let s1 :=
    {| currentSessionId := currentSessionId s;
       conversationHistory := conversationHistory s;
       sessionState := {| customPrompt := customPrompt (sessionState s);
                          googleSearchEnabled := googleSearchEnabled (sessionState s);
                          geminiApiKey := geminiApiKey (sessionState s);
                          active := true |};
       lastProcessedTranscript := lastProcessedTranscript s;
       recentTranscripts := recentTranscripts s;
       ttsQueue := ttsQueue s;
       sent := sent s;
       clockReads := clockReads s |} in
  initializeNewSession clock s1.

(** [!reply] for the settled call, or a rejection. *)
Definition noReply (outcome : ReplyOutcome) : bool :=
  match outcome with
  | Fulfils (Some reply) => negb (truthy reply)
  | Fulfils None => true
  | Rejects => true
  end.

(** A turn of [before] gets [reply] as its response and nothing else changes:
    what an update in place of the turn of a transcript would be. *)
Definition updatedInPlace (transcript reply : str)
    (before after : list ConversationTurn) : Prop :=
  exists pre turn post,
    before = pre ++ turn :: post /\
    transcription turn = transcript /\
    after = pre ++ {| timestamp := timestamp turn;
                      transcription := transcription turn;
                      ai_response := reply |} :: post.

(** The transcript is the last processed one or is in the window. *)
Definition isDuplicate (cleaned : str) (s : State) : bool :=
  eqb cleaned (lastProcessedTranscript s) || setHas cleaned (recentTranscripts s).

(** The synchronous part of [handleCartesiaTranscript] run on a series of
    transcripts, one after the other. *)
Definition submitAll (clock : nat -> N) (getSystemPrompt : option PromptFunction)
    (transcripts : list str) (s : State) : State :=
  fold_left
    (fun s raw => fst (handleCartesiaTranscript_request clock getSystemPrompt (VString raw) s))
    transcripts s.

(** [handleCartesiaTranscript] called on a series of transcripts, each call
    run to its end before the next. *)
Definition handleAll (clock : nat -> N) (getSystemPrompt : option PromptFunction)
    (generateReply : GenerateRequest -> ReplyOutcome)
    (transcripts : list value) (s : State) : State :=
  fold_left
    (fun s raw => handleCartesiaTranscript clock getSystemPrompt generateReply raw s)
    transcripts s.

(** Distinct transcripts for the examples: [utterance 1], [utterance 2], ... *)
Definition utterance (n : nat) : str := lit "utterance " ++ toString (N.of_nat n).

(** The binding of [getSystemPrompt] in the file as it stands: none. *)
Definition unbound : option PromptFunction := None.

(** A clock for the examples, and a prompt function for the runs in which a
    global [getSystemPrompt] is supplied. *)
Definition exampleClock (n : nat) : N := 1700000000000 + N.of_nat n.
Definition examplePrompt (profile custom : str) (search : bool) : str := custom.

(** An active session just started, and an exchange in it. *)
Definition activeState : State := activate exampleClock initialState.

Definition exampleQuestion : str := lit "What is the capital of France?".
Definition exampleReply : str := lit "The capital of France is Paris.".
Definition exampleGenerate (request : GenerateRequest) : ReplyOutcome :=
  Fulfils (Some exampleReply).

(** The state once the gate has taken [exampleQuestion]. *)
Definition questionAsked : State :=
  fst (handleCartesiaTranscript_request exampleClock unbound
         (VString exampleQuestion) activeState).

(** ** Runs of the synthesis queue *)

(** [queueTtsSynthesis] called on a series of texts, in order. *)
Definition enqueueAll (texts : list str) (s : State) : State :=
  fold_left (fun s text => queueTtsSynthesis (VString text) s) texts s.

(** The texts of a series that [queueTtsSynthesis] chains, as chained. *)
Definition chainedTexts (texts : list str) : list str :=
  filter (fun trimmed => negb (length trimmed <? 12)) (map trim texts).

(** One synthesis after the other, each settled before the next starts; the
    first one is call number [calls]. *)
Fixpoint oneAfterTheOther (synthesize : nat -> str -> SynthesisOutcome)
    (calls : nat) (tasks : list str) : list TtsEvent :=
  match tasks with
  | [] => []
  | text :: rest =>
      SynthesisStarted text :: SynthesisSettled text (synthesize calls text)
        :: oneAfterTheOther synthesize (S calls) rest
  end.

(** Reads a series of events from the situation [running] (the text being
    synthesized, if any): [None] when a synthesis starts while another runs or
    one settles that is not running, else the situation at the end. *)
Fixpoint runningFrom (running : option str) (events : list TtsEvent)
    : option (option str) :=
  match events with
  | [] => Some running
  | SynthesisStarted text :: rest =>
      match running with
      | None => runningFrom (Some text) rest
      | Some _ => None
      end
  | SynthesisSettled text _ :: rest =>
      match running with
      | Some current => if eqb text current then runningFrom None rest else None
      | None => None
      end
  end.

(** A synthesis that throws on the calls of even number. *)
Definition exampleSynthesize (call : nat) (text : str) : SynthesisOutcome :=
  if Nat.even call then SynthesisThrows else AudioPath (Some (lit "/tmp/cartesia-tts.wav")).

(** ** Frames of a stream *)

(** The consecutive blocks of [size] bytes of a stream, from its start: block
    [k] is [stream.slice(k * size, (k + 1) * size)]; there are
    [floor(length / size)] of them. *)
Definition framesOf (size : nat) (stream : Buffer) : list Buffer :=
  map (fun k => firstn size (skipn (k * size) stream))
      (seq 0 (length stream / size)).

(** What is left of a stream after its full blocks. *)
Definition residualOf (size : nat) (stream : Buffer) : Buffer :=
  skipn (size * (length stream / size)) stream.

(** ** The normal form of a cleaned transcript *)

(** White space occurs in [s] only as single spaces, none of them first when
    [afterWhiteSpace] is set. *)
Fixpoint singleSpaced (afterWhiteSpace : bool) (s : str) : bool :=
  match s with
  | [] => true
  | c :: r =>
      if isWhiteSpace c
      then negb afterWhiteSpace && (c =? 32)%N && singleSpaced true r
      else singleSpaced false r
  end.

Definition endsWithWhiteSpace (s : str) : bool :=
  match rev s with
  | c :: _ => isWhiteSpace c
  | [] => false
  end.

(** No white space at either end, and single spaces only in between. *)
Definition normalForm (s : str) : bool :=
  singleSpaced true s && negb (endsWithWhiteSpace s).

(** The entries of the window: distinct, cleaned, of 4 code units or more,
    and at most 13 of them. *)
Definition windowInvariant (s : State) : Prop :=
  NoDup (recentTranscripts s) /\
  Forall (fun t => normalForm t = true /\ 4 <= length t) (recentTranscripts s) /\
  length (recentTranscripts s) <= 13.


(** No turn of the log carries a response. *)
Definition noResponses (s : State) : Prop :=
  Forall (fun turn => ai_response turn = []) (conversationHistory s).

(** ** More handlers of the renderer's requests *)

Section Handlers.

Variable clock : nat -> N.
Variable getSystemPrompt : option PromptFunction.
Variable generateReply : GenerateRequest -> ReplyOutcome.

(** The text ['generate-ai-response'] answers: the trimmed prompt when it is
    a string that is not blank, else the last processed transcript. *)
Definition promptText (prompt : value) (s : State) : str :=
  match prompt with
  | VString p =>
      if truthy p && (0 <? length (trim p)) then trim p else lastProcessedTranscript s
  | VOther _ => lastProcessedTranscript s
  end.

(** [ipcMain.handle('generate-ai-response', ...)]: an error thrown by
    [respondWithCerebras] is caught and its message returned. *)
Definition generateAiResponse (prompt : value) (s : State) : IpcResult * State :=
  if negb (active (sessionState s)) then (Failure (lit "No active session"), s)
  else
    let text := promptText prompt s in
    if negb (truthy text) then (Failure (lit "No transcript to respond to"), s)
    else
      match respondWithCerebras clock getSystemPrompt generateReply text None s with
      | (s1, None) => (Success, s1)
      | (s1, Some message) => (Failure message, s1)
      end.

(** [ipcMain.handle('start-new-session', ...)]: the result
    [{ success: true, sessionId: currentSessionId }] and the new state. *)
Definition startNewSession (s : State) : (IpcResult * option str) * State :=
  let s1 := initializeNewSession clock s in
  ((Success, currentSessionId s1), s1).

(** [getCurrentSessionData]. *)
Definition getCurrentSessionData (s : State) : option str * list ConversationTurn :=
  (currentSessionId s, conversationHistory s).

End Handlers.

(** What the ['close-session'] handler and the [close] of the session
    reference do to the session state: [sessionState.active = false]. *)
Definition deactivate (s : State) : State :=
  {| currentSessionId := currentSessionId s;
     conversationHistory := conversationHistory s;
     sessionState := {| customPrompt := customPrompt (sessionState s);
                        googleSearchEnabled := googleSearchEnabled (sessionState s);
                        geminiApiKey := geminiApiKey (sessionState s);
                        active := false |};
     lastProcessedTranscript := lastProcessedTranscript s;
     recentTranscripts := recentTranscripts s;
     ttsQueue := ttsQueue s;
     sent := sent s;
     clockReads := clockReads s |}.

Definition isUserEntry (e : HistoryEntry) : bool :=
  match role e with User => true | Assistant => false end.

Definition isAssistantEntry (e : HistoryEntry) : bool :=
  match role e with User => false | Assistant => true end.

(** ** The speech service: batches of final transcripts, audio chunks

    The parts of [CartesiaSpeechService] that the orchestration file drives:
    the messages of the recognizer, the batch of final segments with its timer,
    and the chain of audio sends. *)

(** [Array.prototype.join(sep)] on strings. *)
Fixpoint joinWith (sep : str) (parts : list str) : str :=
  match parts with
  | [] => []
  | part :: rest =>
      match rest with
      | [] => part
      | _ :: _ => part ++ sep ++ joinWith sep rest
      end
  end.

Module Cartesia.

(** A message of the recognizer socket, as [handleSttMessage] reads it:
    [text] is absent when [message.text] is falsy. *)
Inductive SttMessage :=
| Transcript (text : option str) (isFinal : bool)
| FlushDone
| Done
| ErrorMessage
| OtherType
| NotAnObject.

(** What the service emits to its listeners. *)
Inductive Emitted :=
| FinalTranscript (text : str)
| InterimTranscript (text : str)
| TranscriptBatch (combined : str)
| TranscriptComplete (combined : str)
| SttFlush
| SttComplete
| SttError.

(** [pendingSend]: [Promise.resolve()], or the promise got by chaining the
    send of one more chunk. *)
Inductive SendChain :=
| NoSend
| ThenSend (previous : SendChain) (chunk : Buffer).

(** The fields of the service these functions use; [sttWs] and [batchTimer]
    tell whether a socket is held and whether a timeout is pending; [emitted]
    lists what was emitted so far, oldest first. *)
Record Service := {
  sttWs : bool;
  isStreaming : bool;
  batchSegments : list str;
  batchTimer : bool;
  pendingSend : SendChain;
  emitted : list Emitted;
}.

(** The service as constructed. *)
Definition newService : Service :=
  {| sttWs := false; isStreaming := false; batchSegments := [];
     batchTimer := false; pendingSend := NoSend; emitted := [] |}.

Definition emit (e : Emitted) (sv : Service) : Service :=
  {| sttWs := sttWs sv; isStreaming := isStreaming sv;
     batchSegments := batchSegments sv; batchTimer := batchTimer sv;
     pendingSend := pendingSend sv; emitted := emitted sv ++ [e] |}.

Definition setBatch (segments : list str) (timer : bool) (sv : Service) : Service :=
  {| sttWs := sttWs sv; isStreaming := isStreaming sv;
     batchSegments := segments; batchTimer := timer;
     pendingSend := pendingSend sv; emitted := emitted sv |}.

(** [enqueueBatch]: the segment is pushed, the pending timeout (if any) is
    cleared and a new one is set. *)
Definition enqueueBatch (segment : str) (sv : Service) : Service :=
  if negb (truthy segment) then sv
  else setBatch (batchSegments sv ++ [segment]) true sv.

(** [flushBatch]: the combined text and the new state. *)
Definition flushBatch (sv : Service) : str * Service :=
  if length (batchSegments sv) =? 0 then ([], setBatch (batchSegments sv) false sv)
  else (trim (replaceWhiteSpaceRuns (joinWith [32%N] (batchSegments sv))),
        setBatch [] false sv).

Definition resetBatch (sv : Service) : Service := setBatch [] false sv.

(** The callback of the timeout set by [enqueueBatch]; it runs only while
    that timeout is pending. *)
Definition batchTimerFires (sv : Service) : Service :=
  if batchTimer sv then
    let (combined, sv1) := flushBatch sv in
    if truthy combined then emit (TranscriptBatch combined) sv1 else sv1
  else sv.

Definition handleSttMessage (message : SttMessage) (sv : Service) : Service :=
  match message with
  | NotAnObject => sv
  | Transcript text isFinal =>
      let text := trim (match text with Some t => t | None => [] end) in
      if negb (truthy text) then sv
      else if isFinal then enqueueBatch text (emit (FinalTranscript text) sv)
      else emit (InterimTranscript text) sv
  | FlushDone => emit SttFlush sv
  | Done =>
      let (combined, sv1) := flushBatch sv in
      let sv2 := if truthy combined then emit (TranscriptComplete combined) sv1 else sv1 in
      emit SttComplete sv2
  | ErrorMessage => emit SttError sv
  | OtherType => sv
  end.

(** The end of [stopTranscription], after its awaits: the socket is let go
    and the batch is reset (nothing at all when no socket is held). *)
Definition stopTranscription_end (sv : Service) : Service :=
  if sttWs sv then
    resetBatch
      {| sttWs := false; isStreaming := false;
         batchSegments := batchSegments sv; batchTimer := batchTimer sv;
         pendingSend := pendingSend sv; emitted := emitted sv |}
  else sv.

(** [enqueueAudioChunk]: the returned boolean and the new state. *)
Definition enqueueAudioChunk (buffer : Buffer) (sv : Service) : bool * Service :=
  if negb (sttWs sv) || (length buffer =? 0) then (false, sv)
  else (true,
        {| sttWs := sttWs sv; isStreaming := isStreaming sv;
           batchSegments := batchSegments sv; batchTimer := batchTimer sv;
           pendingSend := ThenSend (pendingSend sv) buffer;
           emitted := emitted sv |}).

Section Audio.

(** [Buffer.from(base64Data, 'base64')]. *)
Variable fromBase64 : str -> Buffer.

Definition enqueueBase64Audio (base64Data : value) (sv : Service) : bool * Service :=
  match base64Data with
  | VString data =>
      if negb (truthy data) then (false, sv)
      else enqueueAudioChunk (fromBase64 data) sv
  | VOther _ => (false, sv)
  end.

End Audio.

(** Final transcripts arriving one after the other. *)
Definition deliverFinals (texts : list (option str)) (sv : Service) : Service :=
  fold_left (fun sv text => handleSttMessage (Transcript text true) sv) texts sv.

(** The segments these transcripts leave in the batch: the trimmed texts that
    are not empty. *)
Definition keptSegments (texts : list (option str)) : list str :=
  filter truthy
    (map (fun text => trim (match text with Some t => t | None => [] end)) texts).

(** A timeout is pending exactly while segments wait, and the segments are
    trimmed and not empty. *)
Definition batchInvariant (sv : Service) : Prop :=
  batchTimer sv = negb (length (batchSegments sv) =? 0) /\
  Forall (fun segment => truthy segment = true /\ trim segment = segment)
    (batchSegments sv).

End Cartesia.

(** *** The chain of audio sends *)

Inductive SendEvent :=
| SendStarted (chunk : Buffer)
| SendSettled (chunk : Buffer) (sent : bool).

Section Sends.

(** Whether the n-th call of [this.sttWs.send] ends well ([false]: it throws
    or its promise rejects). *)
Variable send : nat -> Buffer -> bool.

Definition startedSends (events : list SendEvent) : nat :=
  length (filter (fun e => match e with SendStarted _ => true | _ => false end) events).

(** How a value of [pendingSend] settles, and the sends that happen until
    then, in order: each link is
    [previous.then(() => this.sttWs.send(chunk)).catch(error => console.error(...))]. *)
Fixpoint settleSends (chain : Cartesia.SendChain) : Settlement * list SendEvent :=
  match chain with
  | Cartesia.NoSend => (Fulfilled, [])
  | Cartesia.ThenSend previous chunk =>
      let (r, events) := settleSends previous in
      match r with
      | Fulfilled =>
          let sent := send (startedSends events) chunk in
          (catchIgnoring (if sent then Fulfilled else Rejected),
           events ++ [SendStarted chunk; SendSettled chunk sent])
      | Rejected => (catchIgnoring Rejected, events)
      end
  end.

(** One send after the other, the first being call number [calls]. *)
Fixpoint sendsInOrder (calls : nat) (chunks : list Buffer) : list SendEvent :=
  match chunks with
  | [] => []
  | chunk :: rest =>
      SendStarted chunk :: SendSettled chunk (send calls chunk)
        :: sendsInOrder (S calls) rest
  end.

End Sends.

(** [enqueueAudioChunk] called on a series of buffers. *)
Definition enqueueChunks (chunks : list Buffer) (sv : Cartesia.Service) : Cartesia.Service :=
  fold_left (fun sv chunk => snd (Cartesia.enqueueAudioChunk chunk sv)) chunks sv.

(** The buffers of a series that are not empty. *)
Definition nonEmptyChunks (chunks : list Buffer) : list Buffer :=
  filter (fun chunk => negb (length chunk =? 0)) chunks.

(** A service holding a socket. *)
Definition streamingService : Cartesia.Service :=
  {| Cartesia.sttWs := true; Cartesia.isStreaming := true;
     Cartesia.batchSegments := []; Cartesia.batchTimer := false;
     Cartesia.pendingSend := Cartesia.NoSend; Cartesia.emitted := [] |}.

(** ** Audio content sent by the renderer *)

(** [ipcMain.handle('send-audio-content', ...)], on the state of the module
    and of the speech service: the result and the new state of the service. *)
Definition sendAudioContent (fromBase64 : str -> Buffer) (data : value)
    (s : State) (sv : Cartesia.Service) : IpcResult * Cartesia.Service :=
  if negb (active (sessionState s)) then (Failure (lit "No active session"), sv)
  else
    match data with
    | VString _ => (Success, snd (Cartesia.enqueueBase64Audio fromBase64 data sv))
    | VOther _ => (Success, sv)
    end.

(** ** The texts of the synthesis queue *)

Fixpoint chainTexts (q : Promise) : list str :=
  match q with
  | Resolved => []
  | Chained previous text => chainTexts previous ++ [text]
  end.

(** Every text of the queue is trimmed and has 12 code units or more. *)
Definition queueInvariant (s : State) : Prop :=
  Forall (fun text => trim text = text /\ 12 <= length text) (chainTexts (ttsQueue s)).

(** ** Speaker results *)

(** One result of [formatSpeakerResults]: [transcript] and [speakerId] as
    far as the function reads them (absent when [undefined]). *)
Record SpeakerResult := {
  resultTranscript : option str;
  speakerId : option Z;
}.

(** [result.transcript && result.speakerId]. *)
Definition hasSpeakerLine (result : SpeakerResult) : bool :=
  match resultTranscript result, speakerId result with
  | Some transcript, Some id => truthy transcript && negb (id =? 0)%Z
  | _, _ => false
  end.

Definition speakerLabel (result : SpeakerResult) : str :=
  match speakerId result with
  | Some 1%Z => lit "Interviewer"
  | _ => lit "Candidate"
  end.

(** The loop of [formatSpeakerResults]: [text += `[${speakerLabel}]: ${result.transcript}\n`]. *)
Definition formatSpeakerResults (results : list SpeakerResult) : str :=
  fold_left
    (fun text result =>
       if hasSpeakerLine result
       then text ++ lit "[" ++ speakerLabel result ++ lit "]: "
                 ++ match resultTranscript result with Some t => t | None => [] end
                 ++ [10%N]
       else text)
    results [].

(** The line of one result. *)
Definition speakerLine (result : SpeakerResult) : str :=
  lit "[" ++ speakerLabel result ++ lit "]: "
    ++ match resultTranscript result with Some t => t | None => [] end ++ [10%N].

(** ** The language of the recognizer *)

(** [s.split(sep)[0]]: the part of [s] before the first [sep]. *)
Fixpoint beforeFirst (sep : N) (s : str) : str :=
  match s with
  | [] => []
  | c :: r => if (c =? sep)%N then [] else c :: beforeFirst sep r
  end.

(** What [startTranscription] stores as [this.language]:
    [(language || 'en').split('-')[0]], the option being ['en'] when absent. *)
Definition normalizeLanguage (language : option str) : str :=
  beforeFirst 45
    (match language with
     | Some l => if truthy l then l else lit "en"
     | None => lit "en"
     end).

(** * Properties *)

(** ** Strings and sets *)

Lemma eqb_eq a b : eqb a b = true <-> a = b.
Proof. unfold eqb. destruct (str_eq_dec a b); split; congruence. Qed.

Lemma eqb_refl a : eqb a a = true.
Proof. apply eqb_eq. reflexivity. Qed.

Lemma eqb_neq a b : eqb a b = false <-> a <> b.
Proof. unfold eqb. destruct (str_eq_dec a b); split; congruence. Qed.

Lemma truthy_length s : truthy s = true <-> 0 < length s.
Proof. destruct s; simpl; split; intros; try lia; congruence. Qed.

Lemma digits_nonnil u : u <> Decimal.Nil -> truthy (digits u) = true.
Proof. destruct u; simpl; congruence. Qed.

Lemma toString_truthy n : truthy (toString n) = true.
Proof.
  unfold toString. apply digits_nonnil.
  destruct n as [|p]; simpl; [discriminate|].
  apply DecimalPos.Unsigned.to_uint_nonnil.
Qed.

Lemma setHas_In x l : setHas x l = true <-> In x l.
Proof.
  unfold setHas. rewrite existsb_exists. split.
  - intros [y [Hy He]]. apply eqb_eq in He. subst. assumption.
  - intros H. exists x. split; [assumption | apply eqb_refl].
Qed.

Lemma setAdd_length x l :
  length (setAdd x l) = if setHas x l then length l else S (length l).
Proof.
  unfold setAdd. destruct (setHas x l); [reflexivity|].
  rewrite length_app. simpl. lia.
Qed.

Lemma setDelete_head x l : setDelete x (x :: l) = l.
Proof. simpl. rewrite eqb_refl. reflexivity. Qed.

Lemma setHas_false x l : setHas x l = false <-> ~ In x l.
Proof.
  rewrite <- setHas_In. destruct (setHas x l); split; intros; congruence.
Qed.

(** ** Session bookkeeping *)

Section OrchestrationFacts.

Variable clock : nat -> N.
Variable getSystemPrompt : option PromptFunction.
Variable generateReply : GenerateRequest -> ReplyOutcome.

Lemma hasSession_initializeNewSession s :
  hasSession (initializeNewSession clock s) = true.
Proof. unfold hasSession, initializeNewSession. simpl. apply toString_truthy. Qed.

(** What [saveConversationTurn] does, field by field. *)
Lemma saveConversationTurn_spec transcription0 aiResponse s :
  let base := if hasSession s then s else initializeNewSession clock s in
  let turn := {| timestamp := clock (clockReads base);
                 transcription := trim transcription0;
                 ai_response := trim aiResponse |} in
  saveConversationTurn clock transcription0 aiResponse s =
  {| currentSessionId := currentSessionId base;
     conversationHistory := conversationHistory base ++ [turn];
     sessionState := sessionState base;
     lastProcessedTranscript := lastProcessedTranscript base;
     recentTranscripts := recentTranscripts base;
     ttsQueue := ttsQueue base;
     sent := sent base ++
       [SaveConversationTurn (currentSessionId base) turn (conversationHistory base ++ [turn])];
     clockReads := S (clockReads base) |}.
Proof. reflexivity. Qed.

(** C9: [saveConversationTurn] leaves a session in place (a fresh one, with
    empty history and cleared duplicate state, when there was none), appends the
    turn to the history of that session, and sends one [save-conversation-turn]
    message carrying the session id and the full history ending in the new
    turn. *)
Theorem saveConversationTurn_session transcription0 aiResponse s :
  let s' := saveConversationTurn clock transcription0 aiResponse s in
  hasSession s' = true /\
  currentSessionId s' <> None /\
  (if hasSession s
   then currentSessionId s' = currentSessionId s /\
        lastProcessedTranscript s' = lastProcessedTranscript s /\
        recentTranscripts s' = recentTranscripts s
   else currentSessionId s' = Some (toString (clock (clockReads s))) /\
        lastProcessedTranscript s' = [] /\
        recentTranscripts s' = []) /\
  exists turn,
    transcription turn = trim transcription0 /\
    ai_response turn = trim aiResponse /\
    conversationHistory s' =
      (if hasSession s then conversationHistory s else []) ++ [turn] /\
    sent s' =
      sent s ++ [SaveConversationTurn (currentSessionId s') turn (conversationHistory s')].
Proof.
  intros s'. subst s'. rewrite saveConversationTurn_spec.
  destruct (hasSession s) eqn:Hs; cbn -[toString].
  - split; [assumption|]. split.
    { unfold hasSession in Hs. destruct (currentSessionId s); congruence. }
    split; [auto|].
    exists {| timestamp := clock (clockReads s); transcription := trim transcription0;
              ai_response := trim aiResponse |}.
    repeat split.
  - split; [unfold hasSession; cbn -[toString]; apply toString_truthy|].
    split; [discriminate|]. split; [auto|].
    exists {| timestamp := clock (S (clockReads s)); transcription := trim transcription0;
              ai_response := trim aiResponse |}.
    repeat split.
Qed.


(** ** Reply generation *)

Lemma sent_sendToRenderer m s : sent (sendToRenderer m s) = sent s ++ [m].
Proof. reflexivity. Qed.

Lemma queueTtsSynthesis_spec reply s :
  queueTtsSynthesis (VString reply) s =
  if length (trim reply) <? 12 then s
  else set_ttsQueue (Chained (ttsQueue s) (trim reply)) s.
Proof. reflexivity. Qed.

(** The synchronous part of [respondWithCerebras] leaves the module as it
    was but for the messages sent, of which there is at most the status
    [Responding...]. *)
Lemma respondWithCerebras_request_state transcript searchSummary s :
  let s' := fst (respondWithCerebras_request getSystemPrompt transcript searchSummary s) in
  s' = match getSystemPrompt with
       | None => s
       | Some _ => sendToRenderer (UpdateStatus (lit "Responding...")) s
       end.
Proof. unfold respondWithCerebras_request. destruct getSystemPrompt; reflexivity. Qed.

Lemma respondWithCerebras_request_recent transcript searchSummary s :
  recentTranscripts
    (fst (respondWithCerebras_request getSystemPrompt transcript searchSummary s)) =
  recentTranscripts s.
Proof. rewrite respondWithCerebras_request_state. destruct getSystemPrompt; reflexivity. Qed.

(** The [try] block after the [await] when there is no reply: the status
    [Listening...] and nothing else. *)
Lemma resume_no_reply transcript outcome s :
  noReply outcome = true ->
  respondWithCerebras_resume clock transcript outcome s =
  sendToRenderer (UpdateStatus (lit "Listening...")) s.
Proof.
  destruct outcome as [[reply|]|]; simpl; intros H; try reflexivity.
  destruct (truthy reply); [discriminate | reflexivity].
Qed.


(** ** The transcript gate *)

Lemma gate_duplicate rawTranscript s :
  isDuplicate (cleanTranscript rawTranscript) s = true ->
  handleCartesiaTranscript_request clock getSystemPrompt rawTranscript s = (s, None).
Proof.
  unfold isDuplicate, handleCartesiaTranscript_request. intros H.
  destruct (negb (active (sessionState s))); [reflexivity|].
  destruct (negb (truthy (cleanTranscript rawTranscript))
            || (length (cleanTranscript rawTranscript) <? 4)); [reflexivity|].
  destruct (eqb (cleanTranscript rawTranscript) (lastProcessedTranscript s));
    [reflexivity|].
  simpl in H. rewrite H. reflexivity.
Qed.

(** An accepted transcript: what the gate does with it. *)
Lemma gate_accepts rawTranscript s :
  active (sessionState s) = true ->
  4 <= length (cleanTranscript rawTranscript) ->
  isDuplicate (cleanTranscript rawTranscript) s = false ->
  let cleaned := cleanTranscript rawTranscript in
  let s1 := set_dedup cleaned (setAdd cleaned (evictOldest (recentTranscripts s))) s in
  let s2 := saveConversationTurn clock cleaned [] s1 in
  handleCartesiaTranscript_request clock getSystemPrompt rawTranscript s =
  (fst (respondWithCerebras_request getSystemPrompt cleaned None s2),
   Some (cleaned, snd (respondWithCerebras_request getSystemPrompt cleaned None s2))).
Proof.
  intros Ha Hl Hd. unfold isDuplicate in Hd. apply orb_false_iff in Hd as [H1 H2].
  unfold handleCartesiaTranscript_request. rewrite Ha. simpl negb. cbv iota.
  assert (Ht : truthy (cleanTranscript rawTranscript) = true)
    by (apply truthy_length; lia).
  rewrite Ht. apply Nat.ltb_ge in Hl. rewrite Hl. simpl orb. cbv iota.
  rewrite H1, H2.
  destruct (respondWithCerebras_request _ _ _ _). reflexivity.
Qed.

(** The state the gate leaves, as far as the log, the session and the
    duplicate state go: a transcript is dropped with no change, or it is
    recorded. *)
Lemma gate_state rawTranscript s :
  let cleaned := cleanTranscript rawTranscript in
  let call :=
    respondWithCerebras_request getSystemPrompt cleaned None
      (saveConversationTurn clock cleaned []
         (set_dedup cleaned (setAdd cleaned (evictOldest (recentTranscripts s))) s)) in
  handleCartesiaTranscript_request clock getSystemPrompt rawTranscript s = (s, None) \/
  4 <= length cleaned /\
  isDuplicate cleaned s = false /\
  handleCartesiaTranscript_request clock getSystemPrompt rawTranscript s =
    (fst call, Some (cleaned, snd call)).
Proof.
  cbv zeta. unfold handleCartesiaTranscript_request, isDuplicate.
  destruct (negb (active (sessionState s))); [left; reflexivity|].
  destruct (negb (truthy (cleanTranscript rawTranscript))
            || (length (cleanTranscript rawTranscript) <? 4)) eqn:E; [left; reflexivity|].
  destruct (eqb (cleanTranscript rawTranscript) (lastProcessedTranscript s));
    [left; reflexivity|].
  destruct (setHas (cleanTranscript rawTranscript) (recentTranscripts s));
    [left; reflexivity|].
  right. apply orb_false_iff in E as [_ E]. apply Nat.ltb_ge in E.
  split; [exact E|]. split; [reflexivity|].
  destruct (respondWithCerebras_request _ _ _ _). reflexivity.
Qed.

Lemma gate_dropped_or_last rawTranscript s :
  hasSession s = true ->
  handleCartesiaTranscript_request clock getSystemPrompt rawTranscript s = (s, None) \/
  lastProcessedTranscript (fst (handleCartesiaTranscript_request clock getSystemPrompt rawTranscript s)) = cleanTranscript rawTranscript.
Proof.
  intros Hs. destruct (gate_state rawTranscript s) as [H|(_ & _ & H)]; [left; exact H|].
  right. rewrite H. cbn [fst].
  rewrite respondWithCerebras_request_state, saveConversationTurn_spec.
  replace (hasSession (set_dedup _ _ s)) with (hasSession s) by reflexivity.
  rewrite Hs. destruct getSystemPrompt; reflexivity.
Qed.

Lemma gate_short rawTranscript s :
  length (cleanTranscript rawTranscript) < 4 ->
  handleCartesiaTranscript_request clock getSystemPrompt rawTranscript s = (s, None).
Proof.
  intros H. unfold handleCartesiaTranscript_request.
  destruct (negb (active (sessionState s))); [reflexivity|].
  apply Nat.ltb_lt in H. rewrite H, orb_true_r. reflexivity.
Qed.

(** For every accepted transcript, whatever its length, the gate calls
    [respondWithCerebras]: it has no other test.  With a binding of
    [getSystemPrompt] the call comes to the generator. *)
Lemma accepted_transcript_calls_respond rawTranscript s :
  active (sessionState s) = true ->
  4 <= length (cleanTranscript rawTranscript) ->
  isDuplicate (cleanTranscript rawTranscript) s = false ->
  exists call,
    snd (handleCartesiaTranscript_request clock getSystemPrompt rawTranscript s) =
    Some (cleanTranscript rawTranscript, call) /\
    match getSystemPrompt with
    | None => call = Thrown (lit "getSystemPrompt is not defined")
    | Some _ => exists request, call = Awaiting request
    end.
Proof.
  intros Ha Hl Hd. rewrite (gate_accepts rawTranscript s Ha Hl Hd). cbn [snd].
  eexists. split; [reflexivity|].
  unfold respondWithCerebras_request.
  destruct getSystemPrompt; [eexists|]; reflexivity.
Qed.


(** *** The window of recent transcripts *)

Lemma evictOldest_length recent :
  Forall (fun x => truthy x = true) recent ->
  length recent <= 13 ->
  length (evictOldest recent) <= 12.
Proof.
  intros Ht Hl. unfold evictOldest.
  destruct (12 <? length recent) eqn:E.
  - destruct recent as [|first rest]; [simpl; lia|].
    inversion Ht as [|? ? Hf _]; subst. rewrite Hf, setDelete_head.
    simpl in Hl. lia.
  - apply Nat.ltb_ge in E. exact E.
Qed.

Lemma evictOldest_truthy recent :
  Forall (fun x => truthy x = true) recent ->
  Forall (fun x => truthy x = true) (evictOldest recent).
Proof.
  intros Ht. unfold evictOldest.
  destruct (12 <? length recent); [|assumption].
  destruct recent as [|first rest]; [assumption|].
  inversion Ht as [|? ? Hf Hr]; subst. rewrite Hf, setDelete_head. assumption.
Qed.

(** The bound the gate keeps: at most 13 entries, none of them empty. *)
Lemma gate_window_bound rawTranscript s :
  Forall (fun x => truthy x = true) (recentTranscripts s) ->
  length (recentTranscripts s) <= 13 ->
  let s' := fst (handleCartesiaTranscript_request clock getSystemPrompt rawTranscript s) in
  Forall (fun x => truthy x = true) (recentTranscripts s') /\
  length (recentTranscripts s') <= 13.
Proof.
  intros Ht Hl. cbv zeta.
  destruct (gate_state rawTranscript s) as [H|(H4 & _ & H)]; [rewrite H; simpl; auto|].
  rewrite H. cbn [fst].
  rewrite respondWithCerebras_request_recent, saveConversationTurn_spec.
  replace (hasSession (set_dedup _ _ s)) with (hasSession s) by reflexivity.
  destruct (hasSession s); cbn -[evictOldest setAdd toString].
  - assert (E1 : truthy (cleanTranscript rawTranscript) = true)
      by (apply truthy_length; lia).
    pose proof (evictOldest_length _ Ht Hl) as Hl'.
    pose proof (evictOldest_truthy _ Ht) as Ht'.
    split.
    + unfold setAdd. destruct (setHas _ _); [assumption|].
      apply Forall_app. split; [assumption|]. constructor; [assumption|constructor].
    + rewrite setAdd_length. destruct (setHas _ _); lia.
  - split; [constructor | simpl; lia].
Qed.


(** *** A transcript stays in the window *)

Lemma evictOldest_incl recent x : In x (evictOldest recent) -> In x recent.
Proof.
  unfold evictOldest. destruct (12 <? length recent); [|auto].
  destruct recent as [|first rest]; [auto|].
  destruct (truthy first); [|auto].
  rewrite setDelete_head. intros H. right. exact H.
Qed.

(** The eviction takes an entry from the front only, and none at all while
    fewer than 12 entries follow the one looked at. *)
Lemma evictOldest_keeps cleaned pre post :
  ~ In cleaned pre ->
  length post < 12 ->
  exists pre',
    evictOldest (pre ++ cleaned :: post) = pre' ++ cleaned :: post /\
    ~ In cleaned pre'.
Proof.
  intros Hn Hl. unfold evictOldest.
  destruct (12 <? length (pre ++ cleaned :: post)) eqn:E; [|exists pre; auto].
  destruct pre as [|first pre'].
  - apply Nat.ltb_lt in E. simpl in E. lia.
  - cbn [app]. destruct (truthy first).
    + rewrite setDelete_head. exists pre'. split; [reflexivity|].
      intros H. apply Hn. right. exact H.
    + exists (first :: pre'). auto.
Qed.

(** What the reply does to the session and the duplicate state when it
    arrives: nothing. *)
Lemma resume_keeps_gate_state transcript outcome s :
  hasSession s = true ->
  let s' := respondWithCerebras_resume clock transcript outcome s in
  hasSession s' = true /\
  sessionState s' = sessionState s /\
  lastProcessedTranscript s' = lastProcessedTranscript s /\
  recentTranscripts s' = recentTranscripts s /\
  length (conversationHistory s) <= length (conversationHistory s').
Proof.
  intros Hs. cbv zeta. unfold respondWithCerebras_resume.
  destruct outcome as [[reply|]|];
    try (split; [exact Hs|]; repeat split; apply Nat.le_refl).
  destruct (truthy reply); [|split; [exact Hs|]; repeat split; apply Nat.le_refl].
  rewrite queueTtsSynthesis_spec, saveConversationTurn_spec.
  replace (hasSession (sendToRenderer (UpdateResponse reply) s)) with (hasSession s)
    by reflexivity.
  rewrite Hs.
  destruct (length (trim reply) <? 12); cbn;
    (split; [exact Hs|]); repeat split; rewrite length_app; simpl; lia.
Qed.

(** A whole call of [handleCartesiaTranscript] in a session: the transcript
    is dropped and nothing changes, or it is the new last processed transcript
    and the newest entry of the window. *)
Lemma handleCartesiaTranscript_state rawTranscript s :
  hasSession s = true ->
  let cleaned := cleanTranscript rawTranscript in
  let s' := handleCartesiaTranscript clock getSystemPrompt generateReply rawTranscript s in
  hasSession s' = true /\
  sessionState s' = sessionState s /\
  (handleCartesiaTranscript_request clock getSystemPrompt rawTranscript s = (s, None) /\
   s' = s \/
   4 <= length cleaned /\
   isDuplicate cleaned s = false /\
   lastProcessedTranscript s' = cleaned /\
   recentTranscripts s' = setAdd cleaned (evictOldest (recentTranscripts s)) /\
   length (conversationHistory s) < length (conversationHistory s')).
Proof.
  intros Hs. cbv zeta. unfold handleCartesiaTranscript.
  destruct (gate_state rawTranscript s) as [H|(H4 & Hd & H)].
  { rewrite H. auto. }
  rewrite H. clear H.
  assert (Hsave :
    saveConversationTurn clock (cleanTranscript rawTranscript) []
      (set_dedup (cleanTranscript rawTranscript)
         (setAdd (cleanTranscript rawTranscript) (evictOldest (recentTranscripts s))) s) =
    let turn := {| timestamp := clock (clockReads s);
                   transcription := trim (cleanTranscript rawTranscript);
                   ai_response := trim [] |} in
    {| currentSessionId := currentSessionId s;
       conversationHistory := conversationHistory s ++ [turn];
       sessionState := sessionState s;
       lastProcessedTranscript := cleanTranscript rawTranscript;
       recentTranscripts :=
         setAdd (cleanTranscript rawTranscript) (evictOldest (recentTranscripts s));
       ttsQueue := ttsQueue s;
       sent := sent s ++
         [SaveConversationTurn (currentSessionId s) turn (conversationHistory s ++ [turn])];
       clockReads := S (clockReads s) |}).
  { rewrite saveConversationTurn_spec.
    replace (hasSession (set_dedup _ _ s)) with (hasSession s) by reflexivity.
    rewrite Hs. reflexivity. }
  rewrite Hsave. cbv zeta. unfold respondWithCerebras_request.
  destruct getSystemPrompt as [prompt|]; cbn [fst snd].
  - match goal with
    | |- context [respondWithCerebras_resume _ ?t ?o ?x] =>
        destruct (resume_keeps_gate_state t o x Hs) as (R1 & R2 & R3 & R4 & R5)
    end.
    rewrite R1, R2, R3, R4.
    split; [reflexivity|]. split; [reflexivity|]. right.
    repeat (split; [solve [auto]|]).
    eapply Nat.lt_le_trans; [|exact R5].
    cbn [conversationHistory sendToRenderer set_sent]. rewrite length_app. simpl. lia.
  - split; [exact Hs|]. split; [reflexivity|]. right.
    repeat (split; [solve [auto]|]).
    cbn [conversationHistory]. rewrite length_app. simpl. lia.
Qed.

(** One more call of [handleCartesiaTranscript] leaves an entry of the window
    in it as long as fewer than 12 entries have come after it. *)
Lemma window_holds_step cleaned later rawTranscript s :
  hasSession s = true ->
  later < 12 ->
  (exists pre post,
     recentTranscripts s = pre ++ cleaned :: post /\
     ~ In cleaned pre /\ length post <= later) ->
  let s' := handleCartesiaTranscript clock getSystemPrompt generateReply rawTranscript s in
  hasSession s' = true /\
  exists pre post,
    recentTranscripts s' = pre ++ cleaned :: post /\
    ~ In cleaned pre /\ length post <= S later.
Proof.
  intros Hs Hl (pre & post & Hr & Hn & Hp). cbv zeta.
  destruct (handleCartesiaTranscript_state rawTranscript s Hs) as (A & _ & [[_ B]|B]).
  - split; [exact A|]. rewrite B. exists pre, post. repeat split; auto.
  - split; [exact A|]. destruct B as (_ & Hd & _ & B & _). rewrite B, Hr.
    destruct (evictOldest_keeps cleaned pre post Hn ltac:(lia)) as (pre' & E & Hn').
    rewrite E. unfold setAdd.
    destruct (setHas (cleanTranscript rawTranscript) (pre' ++ cleaned :: post)).
    + exists pre', post. repeat split; auto.
    + exists pre', (post ++ [cleanTranscript rawTranscript]).
      rewrite <- app_assoc. split; [reflexivity|]. split; [exact Hn'|].
      rewrite length_app. simpl. lia.
Qed.

Lemma window_holds_through cleaned between : forall later s,
  hasSession s = true ->
  later + length between <= 12 ->
  (exists pre post,
     recentTranscripts s = pre ++ cleaned :: post /\
     ~ In cleaned pre /\ length post <= later) ->
  let s' := handleAll clock getSystemPrompt generateReply between s in
  hasSession s' = true /\ In cleaned (recentTranscripts s').
Proof.
  induction between as [|raw rest IH]; intros later s Hs Hl H; cbv zeta.
  - split; [exact Hs|]. destruct H as (pre & post & E & _).
    unfold handleAll. cbn [fold_left]. rewrite E.
    apply in_or_app. right. left. reflexivity.
  - simpl in Hl. unfold handleAll. cbn [fold_left].
    destruct (window_holds_step cleaned later raw s Hs ltac:(lia) H) as [Hs' H'].
    exact (IH (S later) _ Hs' ltac:(lia) H').
Qed.

(** C4: a transcript whose cleaned form is the last processed one, or is in
    the window, is dropped with no effect at all (same state: no turn, no
    message, no change of the duplicate state; no call of [respondWithCerebras]).
    An accepted transcript is put into the window and stays there while up to
    12 further transcripts are handled, whatever they are and whatever is
    answered to them; submitted again within these, it is in the window and is
    dropped in this way.  A transcript submitted a second time right after the
    first is dropped also when the first was.  (The session is there for every
    transcript of the recognizer: the recognizer is started after
    [initializeNewSession].) *)
Theorem duplicate_transcript_dropped rawTranscript between s :
  (isDuplicate (cleanTranscript rawTranscript) s = true ->
   handleCartesiaTranscript_request clock getSystemPrompt rawTranscript s = (s, None) /\
   handleCartesiaTranscript clock getSystemPrompt generateReply rawTranscript s = s) /\
  (active (sessionState s) = true ->
   hasSession s = true ->
   4 <= length (cleanTranscript rawTranscript) ->
   isDuplicate (cleanTranscript rawTranscript) s = false ->
   length between <= 12 ->
   let s1 := handleCartesiaTranscript clock getSystemPrompt generateReply rawTranscript s in
   let s2 := handleAll clock getSystemPrompt generateReply between s1 in
   conversationHistory s1 <> conversationHistory s /\
   recentTranscripts s1 =
     evictOldest (recentTranscripts s) ++ [cleanTranscript rawTranscript] /\
   In (cleanTranscript rawTranscript) (recentTranscripts s2) /\
   handleCartesiaTranscript_request clock getSystemPrompt rawTranscript s2 = (s2, None) /\
   handleCartesiaTranscript clock getSystemPrompt generateReply rawTranscript s2 = s2) /\
  (hasSession s = true ->
   let s1 := fst (handleCartesiaTranscript_request clock getSystemPrompt rawTranscript s) in
   handleCartesiaTranscript_request clock getSystemPrompt rawTranscript s1 = (s1, None)).
Proof.
  assert (D : forall s0, isDuplicate (cleanTranscript rawTranscript) s0 = true ->
            handleCartesiaTranscript_request clock getSystemPrompt rawTranscript s0
              = (s0, None) /\
            handleCartesiaTranscript clock getSystemPrompt generateReply rawTranscript s0
              = s0).
  { intros s0 H. unfold handleCartesiaTranscript. rewrite (gate_duplicate _ _ H).
    split; reflexivity. }
  split; [apply D|]. split.
  - intros Ha Hs H4 Hd Hb. cbv zeta.
    destruct (handleCartesiaTranscript_state rawTranscript s Hs) as (Hs1 & _ & [[B _]|B]).
    { rewrite (gate_accepts rawTranscript s Ha H4 Hd) in B. discriminate B. }
    destruct B as (_ & _ & _ & B & Hlog).
    assert (Hnot : setHas (cleanTranscript rawTranscript)
                     (evictOldest (recentTranscripts s)) = false).
    { apply setHas_false. intros Hin. apply evictOldest_incl in Hin.
      unfold isDuplicate in Hd. apply orb_false_iff in Hd as [_ Hd].
      apply setHas_false in Hd. exact (Hd Hin). }
    assert (B' : recentTranscripts
                   (handleCartesiaTranscript clock getSystemPrompt generateReply
                      rawTranscript s) =
                 evictOldest (recentTranscripts s) ++ [cleanTranscript rawTranscript]).
    { rewrite B. unfold setAdd. rewrite Hnot. reflexivity. }
    split; [intros E; rewrite E in Hlog; lia|]. split; [exact B'|].
    destruct (window_holds_through (cleanTranscript rawTranscript) between 0 _ Hs1
                ltac:(simpl; lia)) as [_ Hin].
    { exists (evictOldest (recentTranscripts s)), []. split; [exact B'|].
      split; [apply setHas_false; exact Hnot | simpl; lia]. }
    split; [exact Hin|]. apply D. unfold isDuplicate.
    apply orb_true_iff. right. apply setHas_In. exact Hin.
  - intros Hs. cbv zeta.
    destruct (gate_dropped_or_last rawTranscript s Hs) as [H|H].
    + rewrite H. simpl. exact H.
    + apply gate_duplicate. unfold isDuplicate. rewrite H, eqb_refl. reflexivity.
Qed.

(** ** The text-message handler *)

Lemma trim_nil : trim [] = [].
Proof. reflexivity. Qed.

(** C10, as the code has it: in an active session, every text whose trimmed
    form is not empty gets the answer [{ success: true }], also when the gate
    drops it (cleaned form shorter than 4, or a duplicate), in which case the
    module is left exactly as it was. *)
Theorem text_message_reports_success text s :
  active (sessionState s) = true ->
  trim text <> [] ->
  let result := sendTextMessage clock getSystemPrompt generateReply (VString text) s in
  fst result = Success /\
  (length (cleanTranscript (VString text)) < 4 \/
   isDuplicate (cleanTranscript (VString text)) s = true ->
   snd result = s).
Proof.
  intros Ha Ht. cbv zeta. unfold sendTextMessage. rewrite Ha. simpl negb. cbv iota.
  assert (H1 : truthy text = true).
  { destruct text; [exfalso; apply Ht; reflexivity | reflexivity]. }
  assert (H2 : (length (trim text) =? 0) = false).
  { apply Nat.eqb_neq. destruct (trim text); [congruence | simpl; lia]. }
  rewrite H1, H2. simpl. split; [reflexivity|].
  intros [H|H]; unfold handleCartesiaTranscript.
  - rewrite gate_short by exact H. reflexivity.
  - rewrite gate_duplicate by exact H. reflexivity.
Qed.

End OrchestrationFacts.

(** ** The statements on a run *)

Lemma updatedInPlace_length transcript reply before after :
  updatedInPlace transcript reply before after -> length after = length before.
Proof.
  intros (pre & turn & post & Hb & _ & Ha). subst.
  rewrite !length_app. reflexivity.
Qed.

(** The lines after the [await], reached only when a global
    [getSystemPrompt] is supplied: [saveConversationTurn] pushes a turn for the
    reply, so the log then holds two turns for the question, the first with an
    empty response and the second with the reply; no turn is updated in place. *)
Lemma supplied_prompt_reply_appended :
  map (fun turn => (transcription turn, ai_response turn))
    (conversationHistory
       (handleCartesiaTranscript exampleClock (Some examplePrompt) exampleGenerate
          (VString exampleQuestion) activeState)) =
  [(exampleQuestion, []); (exampleQuestion, exampleReply)] /\
  ~ updatedInPlace exampleQuestion exampleReply
      (conversationHistory questionAsked)
      (conversationHistory
         (respondWithCerebras_resume exampleClock exampleQuestion
            (Fulfils (Some exampleReply)) questionAsked)).
Proof.
  split; [vm_compute; reflexivity|].
  intros H. apply updatedInPlace_length in H. vm_compute in H. discriminate.
Qed.

Lemma duplicate_transcript_dropped_witness :
  active (sessionState activeState) = true /\
  hasSession activeState = true /\
  isDuplicate (cleanTranscript (VString exampleQuestion)) activeState = false /\
  length (map (fun n => VString (utterance n)) (seq 1 12)) <= 12 /\
  let s2 :=
    handleAll exampleClock unbound exampleGenerate
      (map (fun n => VString (utterance n)) (seq 1 12))
      (handleCartesiaTranscript exampleClock unbound exampleGenerate
         (VString exampleQuestion) activeState) in
  In exampleQuestion (recentTranscripts s2) /\
  handleCartesiaTranscript exampleClock unbound exampleGenerate
    (VString exampleQuestion) s2 = s2.
Proof.
  assert (H4 : 4 <= length (cleanTranscript (VString exampleQuestion)))
    by (vm_compute; lia).
  assert (Hb : length (map (fun n => VString (utterance n)) (seq 1 12)) <= 12)
    by (vm_compute; lia).
  destruct (duplicate_transcript_dropped exampleClock unbound exampleGenerate
              (VString exampleQuestion)
              (map (fun n => VString (utterance n)) (seq 1 12)) activeState)
    as (_ & B & _).
  destruct (B eq_refl eq_refl H4 eq_refl Hb) as (_ & _ & B3 & _ & B5).
  split; [reflexivity|]. split; [reflexivity|]. split; [reflexivity|].
  split; [exact Hb|]. split; [exact B3 | exact B5].
Defined.


(** C5 on a run: thirteen distinct transcripts in one session leave thirteen
    entries in the window, the oldest among them; the oldest leaves when the
    fourteenth comes. *)
Theorem window_holds_thirteen getSystemPrompt :
  length (recentTranscripts
            (submitAll exampleClock getSystemPrompt (map utterance (seq 1 13)) activeState))
  = 13 /\
  setHas (utterance 1)
    (recentTranscripts
       (submitAll exampleClock getSystemPrompt (map utterance (seq 1 13)) activeState))
  = true /\
  length (recentTranscripts
            (submitAll exampleClock getSystemPrompt (map utterance (seq 1 14)) activeState))
  = 13 /\
  setHas (utterance 1)
    (recentTranscripts
       (submitAll exampleClock getSystemPrompt (map utterance (seq 1 14)) activeState))
  = false.
Proof. destruct getSystemPrompt as [prompt|]; vm_compute; repeat split. Qed.

(** Whatever is submitted, the window stays within thirteen entries. *)
Lemma submitAll_window_bound clock getSystemPrompt transcripts s :
  Forall (fun x => truthy x = true) (recentTranscripts s) ->
  length (recentTranscripts s) <= 13 ->
  length (recentTranscripts (submitAll clock getSystemPrompt transcripts s)) <= 13.
Proof.
  unfold submitAll. revert s.
  induction transcripts as [|raw rest IH]; intros s Ht Hl; simpl; [assumption|].
  destruct (gate_window_bound clock getSystemPrompt (VString raw) s Ht Hl) as [Ht' Hl'].
  apply IH; assumption.
Qed.

(** The decision of the other copy: without the manual mark, a transcript
    shorter than 15 code units gets no reply. *)
Lemma Revised_short_transcript_no_response regexTest toLowerCase transcript auto :
  length transcript < 15 ->
  Revised.shouldGenerateResponse regexTest toLowerCase transcript false auto = false.
Proof.
  intros H. unfold Revised.shouldGenerateResponse.
  apply Nat.ltb_lt in H. rewrite H.
  destruct (negb auto); [reflexivity|].
  destruct (_ && _); reflexivity.
Qed.

(** The text of C10 that is not empty and still refused: one space. *)
Lemma blank_text_message_refused :
  lit " " <> [] /\
  active (sessionState activeState) = true /\
  fst (sendTextMessage exampleClock unbound exampleGenerate
         (VString (lit " ")) activeState) =
  Failure (lit "Invalid text message") /\
  fst (sendTextMessage exampleClock unbound exampleGenerate
         (VString (lit " ")) activeState) <> Success.
Proof.
  split; [discriminate|]. split; [reflexivity|].
  split; [vm_compute; reflexivity | vm_compute; discriminate].
Qed.

Lemma text_message_reports_success_witness :
  active (sessionState activeState) = true /\
  trim (lit "hi") <> [] /\
  length (cleanTranscript (VString (lit "hi"))) < 4 /\
  sendTextMessage exampleClock unbound exampleGenerate (VString (lit "hi")) activeState
  = (Success, activeState).
Proof.
  assert (Ht : trim (lit "hi") <> []) by (vm_compute; discriminate).
  assert (Hl : length (cleanTranscript (VString (lit "hi"))) < 4) by (vm_compute; lia).
  destruct (text_message_reports_success exampleClock unbound exampleGenerate
              (lit "hi") activeState eq_refl Ht) as [A B].
  split; [reflexivity|]. split; [exact Ht|]. split; [exact Hl|].
  rewrite (surjective_pairing (sendTextMessage _ _ _ _ _)).
  rewrite A, (B (or_introl Hl)). reflexivity.
Defined.

(** ** The synthesis queue *)

Section SynthesisQueueFacts.

Variable synthesize : nat -> str -> SynthesisOutcome.

Lemma settle_Chained previous text :
  settle synthesize (Chained previous text) =
  (Fulfilled,
   snd (settle synthesize previous) ++
   [SynthesisStarted text;
    SynthesisSettled text
      (synthesize (startedCalls (snd (settle synthesize previous))) text)]).
Proof.
  simpl. destruct (settle synthesize previous) as [r events]. simpl.
  destruct r; simpl; destruct (synthesize (startedCalls events) text); reflexivity.
Qed.

Lemma startedCalls_app a b : startedCalls (a ++ b) = startedCalls a + startedCalls b.
Proof. unfold startedCalls. rewrite filter_app, length_app. reflexivity. Qed.

Lemma settle_fulfilled q : fst (settle synthesize q) = Fulfilled.
Proof. destruct q; [reflexivity | rewrite settle_Chained; reflexivity]. Qed.

Lemma enqueueAll_cons text texts s :
  enqueueAll (text :: texts) s = enqueueAll texts (queueTtsSynthesis (VString text) s).
Proof. reflexivity. Qed.

Lemma settle_enqueueAll texts : forall s,
  snd (settle synthesize (ttsQueue (enqueueAll texts s))) =
  snd (settle synthesize (ttsQueue s)) ++
  oneAfterTheOther synthesize (startedCalls (snd (settle synthesize (ttsQueue s))))
    (chainedTexts texts).
Proof.
  induction texts as [|text rest IH]; intros s.
  - simpl. rewrite app_nil_r. reflexivity.
  - rewrite enqueueAll_cons, IH, queueTtsSynthesis_spec.
    unfold chainedTexts. simpl map. simpl filter.
    destruct (length (trim text) <? 12); simpl negb; cbv iota.
    + reflexivity.
    + replace (ttsQueue (set_ttsQueue (Chained (ttsQueue s) (trim text)) s))
        with (Chained (ttsQueue s) (trim text)) by reflexivity.
      rewrite settle_Chained. cbn [snd oneAfterTheOther].
      rewrite <- app_assoc, startedCalls_app.
      replace (startedCalls [SynthesisStarted (trim text);
                             SynthesisSettled (trim text) _]) with 1 by reflexivity.
      rewrite Nat.add_1_r. reflexivity.
Qed.

Lemma runningFrom_app running a b :
  runningFrom running (a ++ b) =
  match runningFrom running a with
  | Some running' => runningFrom running' b
  | None => None
  end.
Proof.
  revert running. induction a as [|e a IH]; intros running; [reflexivity|].
  simpl. destruct e as [text|text outcome].
  - destruct running; [reflexivity | apply IH].
  - destruct running as [current|]; [|reflexivity].
    destruct (eqb text current); [apply IH | reflexivity].
Qed.

Lemma settle_no_overlap q : runningFrom None (snd (settle synthesize q)) = Some None.
Proof.
  induction q as [|previous IH text]; [reflexivity|].
  rewrite settle_Chained. cbn [snd]. rewrite runningFrom_app, IH.
  simpl. rewrite eqb_refl. reflexivity.
Qed.

(** C7: after any series of [queueTtsSynthesis] calls, the syntheses the
    queue stands for happen one after the other, in the order of the calls: each
    starts when the one before has settled, whether with a path, with nothing or
    by throwing, none is skipped, no two overlap, and the queue itself ends
    fulfilled.  A text whose trimmed form has fewer than 12 code units leaves
    the queue as it is; any other is chained at its end. *)
Theorem synthesis_runs_in_order texts text s :
  let q := ttsQueue (enqueueAll texts s) in
  snd (settle synthesize q) =
    snd (settle synthesize (ttsQueue s)) ++
    oneAfterTheOther synthesize (startedCalls (snd (settle synthesize (ttsQueue s))))
      (chainedTexts texts) /\
  fst (settle synthesize q) = Fulfilled /\
  runningFrom None (snd (settle synthesize q)) = Some None /\
  (if length (trim text) <? 12
   then queueTtsSynthesis (VString text) s = s
   else ttsQueue (queueTtsSynthesis (VString text) s) = Chained (ttsQueue s) (trim text)).
Proof.
  cbv zeta. split; [apply settle_enqueueAll|].
  split; [apply settle_fulfilled|]. split; [apply settle_no_overlap|].
  rewrite queueTtsSynthesis_spec. destruct (length (trim text) <? 12); reflexivity.
Qed.

End SynthesisQueueFacts.

(** Three replies, the first synthesis throwing: all three run, in order. *)
Example synthesis_three_in_order :
  snd (settle exampleSynthesize
         (ttsQueue (enqueueAll [lit "The first reply."; lit "too short";
                                lit "The second reply."; lit "The third reply."]
                      initialState))) =
  [SynthesisStarted (lit "The first reply.");
   SynthesisSettled (lit "The first reply.") SynthesisThrows;
   SynthesisStarted (lit "The second reply.");
   SynthesisSettled (lit "The second reply.") (AudioPath (Some (lit "/tmp/cartesia-tts.wav")));
   SynthesisStarted (lit "The third reply.");
   SynthesisSettled (lit "The third reply.") SynthesisThrows].
Proof. vm_compute. reflexivity. Qed.

(** ** Buffers of samples *)

Lemma to_N_byteOfZ z : Byte.to_N (byteOfZ z) = Z.to_N (z mod 256).
Proof.
  unfold byteOfZ.
  destruct (Byte.of_N (Z.to_N (z mod 256))) as [b|] eqn:E.
  - apply Byte.to_of_N. exact E.
  - apply Byte.of_N_None_iff in E.
    pose proof (Z.mod_pos_bound z 256 ltac:(lia)). lia.
Qed.

Lemma length_setByte buf index b : length (setByte buf index b) = length buf.
Proof.
  revert index. induction buf as [|x rest IH]; intros [|i]; simpl; auto.
Qed.

Lemma nth_error_setByte buf index b j :
  nth_error (setByte buf index b) j =
  if (j =? index) && (index <? length buf) then Some b else nth_error buf j.
Proof.
  revert index j. induction buf as [|x rest IH]; intros index j.
  - simpl. rewrite andb_false_r. reflexivity.
  - destruct index as [|i], j as [|j]; simpl; try reflexivity.
    rewrite IH. reflexivity.
Qed.

Lemma length_writeInt16LE buf value offset buf' :
  writeInt16LE buf value offset = Some buf' -> length buf' = length buf.
Proof.
  unfold writeInt16LE. destruct (_ && _)%bool; [|discriminate].
  intros H. inversion H. rewrite !length_setByte. reflexivity.
Qed.

Lemma writeInt16LE_defined buf value offset :
  (-32768 <= value <= 32767)%Z -> offset + 2 <= length buf ->
  exists buf', writeInt16LE buf value offset = Some buf'.
Proof.
  intros Hv Ho. unfold writeInt16LE.
  replace (-32768 <=? value)%Z with true by (symmetry; apply Z.leb_le; lia).
  replace (value <=? 32767)%Z with true by (symmetry; apply Z.leb_le; lia).
  replace (offset + 2 <=? length buf) with true by (symmetry; apply Nat.leb_le; lia).
  eexists. reflexivity.
Qed.

(** Reading back the sample just written. *)
Lemma read_write_same buf value offset buf' :
  writeInt16LE buf value offset = Some buf' ->
  readInt16LE buf' offset = Some value.
Proof.
  unfold writeInt16LE.
  destruct (-32768 <=? value)%Z eqn:E1; [|discriminate].
  destruct (value <=? 32767)%Z eqn:E2; [|discriminate].
  destruct (offset + 2 <=? length buf) eqn:E3; [|discriminate].
  cbn [andb]. intros H. inversion H; subst buf'; clear H.
  apply Z.leb_le in E1, E2. apply Nat.leb_le in E3.
  unfold readInt16LE. rewrite !nth_error_setByte, !length_setByte.
  replace (offset =? S offset) with false by (symmetry; apply Nat.eqb_neq; lia).
  rewrite !Nat.eqb_refl.
  replace (offset <? length buf) with true by (symmetry; apply Nat.ltb_lt; lia).
  replace (S offset <? length buf) with true by (symmetry; apply Nat.ltb_lt; lia).
  cbn [andb]. unfold int16OfBytes. rewrite !to_N_byteOfZ.
  rewrite !Z2N.id by (apply Z.mod_pos_bound; lia).
  f_equal.
  destruct (_ <? 32768)%Z eqn:E; [apply Z.ltb_lt in E | apply Z.ltb_ge in E];
    revert E; Z.div_mod_to_equations; lia.
Qed.

(** A write leaves the samples at the other offsets alone. *)
Lemma read_write_other buf value offset buf' other :
  writeInt16LE buf value offset = Some buf' ->
  other + 2 <= offset \/ offset + 2 <= other ->
  readInt16LE buf' other = readInt16LE buf other.
Proof.
  unfold writeInt16LE. destruct (_ && _)%bool; [|discriminate].
  intros H Hd. inversion H; subst buf'; clear H.
  unfold readInt16LE. rewrite !nth_error_setByte.
  replace (other =? S offset) with false by (symmetry; apply Nat.eqb_neq; lia).
  replace (other =? offset) with false by (symmetry; apply Nat.eqb_neq; lia).
  replace (S other =? S offset) with false by (symmetry; apply Nat.eqb_neq; lia).
  replace (S other =? offset) with false by (symmetry; apply Nat.eqb_neq; lia).
  reflexivity.
Qed.

Lemma readInt16LE_range buf offset value :
  readInt16LE buf offset = Some value -> (-32768 <= value <= 32767)%Z.
Proof.
  unfold readInt16LE.
  destruct (nth_error buf offset) as [lo|]; [|discriminate].
  destruct (nth_error buf (S offset)) as [hi|]; [|discriminate].
  pose proof (Byte.to_N_bounded lo) as Hlo. pose proof (Byte.to_N_bounded hi) as Hhi.
  intros Hv. injection Hv as Hv. subst value. unfold int16OfBytes.
  destruct (_ <? 32768)%Z eqn:E; [apply Z.ltb_lt in E | apply Z.ltb_ge in E]; lia.
Qed.

Lemma readInt16LE_defined buf offset :
  offset + 2 <= length buf -> exists value, readInt16LE buf offset = Some value.
Proof.
  intros H. unfold readInt16LE.
  destruct (nth_error buf offset) eqn:E1;
    [|apply nth_error_None in E1; lia].
  destruct (nth_error buf (S offset)) eqn:E2;
    [|apply nth_error_None in E2; lia].
  eexists. reflexivity.
Qed.

(** ** The downmix *)

Lemma convertLoop_spec count : forall i stereoBuffer monoBuffer mono,
  convertLoop count i stereoBuffer monoBuffer = Some mono ->
  length mono = length monoBuffer /\
  (forall j, j < i -> readInt16LE mono (j * 2) = readInt16LE monoBuffer (j * 2)) /\
  (forall j, i <= j < i + count ->
     readInt16LE mono (j * 2) = readInt16LE stereoBuffer (j * 4)).
Proof.
  induction count as [|count IH]; intros i stereoBuffer monoBuffer mono H.
  - injection H as <-. split; [reflexivity|]. split; [reflexivity | intros; lia].
  - simpl in H.
    destruct (readInt16LE stereoBuffer (i * 4)) as [leftSample|] eqn:Er; [|discriminate].
    destruct (writeInt16LE monoBuffer leftSample (i * 2)) as [written|] eqn:Ew;
      [|discriminate].
    apply IH in H as (L & A & B).
    split; [rewrite L; eapply length_writeInt16LE; eassumption|]. split.
    + intros j Hj. rewrite A by lia.
      eapply read_write_other; [eassumption | lia].
    + intros j Hj. destruct (Nat.eq_dec j i) as [->|Hne].
      * rewrite A by lia. rewrite Er. eapply read_write_same; eassumption.
      * apply B. lia.
Qed.

Lemma convertLoop_defined count : forall i stereoBuffer monoBuffer,
  (i + count) * 4 <= length stereoBuffer ->
  (i + count) * 2 <= length monoBuffer ->
  exists mono, convertLoop count i stereoBuffer monoBuffer = Some mono.
Proof.
  induction count as [|count IH]; intros i stereoBuffer monoBuffer Hs Hm.
  - eexists. reflexivity.
  - simpl.
    destruct (readInt16LE_defined stereoBuffer (i * 4)) as [leftSample Er]; [lia|].
    rewrite Er.
    destruct (writeInt16LE_defined monoBuffer leftSample (i * 2)) as [written Ew];
      [eapply readInt16LE_range; eassumption | lia |].
    rewrite Ew. apply IH; [lia|].
    rewrite (length_writeInt16LE _ _ _ _ Ew). lia.
Qed.

Lemma length_alloc size : length (alloc size) = size.
Proof. apply repeat_length. Qed.

Lemma aligned_counts n :
  (4 * n + 3) / 4 = n /\ 4 * n / 2 = 2 * n.
Proof.
  split.
  - symmetry. apply (Nat.div_unique (4 * n + 3) 4 n 3); lia.
  - symmetry. apply (Nat.div_unique (4 * n) 2 (2 * n) 0); lia.
Qed.

(** The downmix of this copy on a buffer of [n] stereo samples: [n] mono
    samples, each the left sample of the pair. *)
Lemma convertStereoToMono_left n stereoBuffer :
  length stereoBuffer = 4 * n ->
  exists mono,
    convertStereoToMono stereoBuffer = Some mono /\
    length mono = 2 * n /\
    forall j, j < n -> readInt16LE mono (j * 2) = readInt16LE stereoBuffer (j * 4).
Proof.
  intros Hl. unfold convertStereoToMono. rewrite Hl.
  destruct (aligned_counts n) as [-> ->].
  destruct (convertLoop_defined n 0 stereoBuffer (alloc (2 * n))) as [mono Hm];
    [lia | rewrite length_alloc; lia |].
  exists mono. split; [exact Hm|].
  apply convertLoop_spec in Hm as (L & _ & B).
  split; [rewrite L; apply length_alloc|].
  intros j Hj. apply B. lia.
Qed.

(** C2 on the two sample pairs of the specification: this copy of
    [convertStereoToMono] gives 32767 for the pair (32767, -32768), where the
    rounded mean is 0, and 32767 for (32767, 32767). *)
Theorem downmix_keeps_left_sample :
  readInt16LE [xff; x7f; x00; x80] 0 = Some 32767%Z /\
  readInt16LE [xff; x7f; x00; x80] 2 = Some (-32768)%Z /\
  convertStereoToMono [xff; x7f; x00; x80] = Some [xff; x7f] /\
  readInt16LE [xff; x7f] 0 = Some 32767%Z /\
  convertStereoToMono [xff; x7f; xff; x7f] = Some [xff; x7f].
Proof. vm_compute. repeat split. Qed.

(** *** The downmix of the other copy *)

(** The sample computed from a pair: the mean, rounded to the nearest integer
    with halves going up, which is within the 16-bit range by itself. *)
Lemma Revised_monoSampleOf_mean leftSample rightSample :
  (-32768 <= leftSample <= 32767)%Z ->
  (-32768 <= rightSample <= 32767)%Z ->
  let mono := Revised.monoSampleOf leftSample rightSample in
  (mono = (leftSample + rightSample + 1) / 2 /\
   -32768 <= mono <= 32767 /\
   leftSample + rightSample <= 2 * mono <= leftSample + rightSample + 1)%Z.
Proof.
  intros Hl Hr. cbv zeta. unfold Revised.monoSampleOf, Revised.roundHalf.
  pose proof (Z.div_mod (leftSample + rightSample + 1) 2 ltac:(lia)) as D.
  pose proof (Z.mod_pos_bound (leftSample + rightSample + 1) 2 ltac:(lia)) as M.
  lia.
Qed.

Lemma Revised_convertLoop_spec count : forall i stereoBuffer monoBuffer mono,
  Revised.convertLoop count i stereoBuffer monoBuffer = Some mono ->
  length mono = length monoBuffer /\
  (forall j, j < i -> readInt16LE mono (j * 2) = readInt16LE monoBuffer (j * 2)) /\
  (forall j, i <= j < i + count ->
     exists leftSample rightSample,
       readInt16LE stereoBuffer (j * 4) = Some leftSample /\
       readInt16LE stereoBuffer (j * 4 + 2) = Some rightSample /\
       readInt16LE mono (j * 2) = Some (Revised.monoSampleOf leftSample rightSample)).
Proof.
  induction count as [|count IH]; intros i stereoBuffer monoBuffer mono H.
  - injection H as <-. split; [reflexivity|]. split; [reflexivity | intros; lia].
  - simpl in H.
    destruct (readInt16LE stereoBuffer (i * 4)) as [leftSample|] eqn:El; [|discriminate].
    destruct (readInt16LE stereoBuffer (i * 4 + 2)) as [rightSample|] eqn:Er;
      [|discriminate].
    destruct (writeInt16LE monoBuffer (Revised.monoSampleOf leftSample rightSample) (i * 2))
      as [written|] eqn:Ew; [|discriminate].
    apply IH in H as (L & A & B).
    split; [rewrite L; eapply length_writeInt16LE; eassumption|]. split.
    + intros j Hj. rewrite A by lia.
      eapply read_write_other; [eassumption | lia].
    + intros j Hj. destruct (Nat.eq_dec j i) as [->|Hne].
      * exists leftSample, rightSample. split; [exact El|]. split; [exact Er|].
        rewrite A by lia. eapply read_write_same; eassumption.
      * apply B. lia.
Qed.

Lemma Revised_convertLoop_defined count : forall i stereoBuffer monoBuffer,
  (i + count) * 4 <= length stereoBuffer ->
  (i + count) * 2 <= length monoBuffer ->
  exists mono, Revised.convertLoop count i stereoBuffer monoBuffer = Some mono.
Proof.
  induction count as [|count IH]; intros i stereoBuffer monoBuffer Hs Hm.
  - eexists. reflexivity.
  - simpl.
    destruct (readInt16LE_defined stereoBuffer (i * 4)) as [leftSample El]; [lia|].
    destruct (readInt16LE_defined stereoBuffer (i * 4 + 2)) as [rightSample Er]; [lia|].
    rewrite El, Er.
    destruct (writeInt16LE_defined monoBuffer
                (Revised.monoSampleOf leftSample rightSample) (i * 2)) as [written Ew];
      [unfold Revised.monoSampleOf; lia | lia |].
    rewrite Ew. apply IH; [lia|].
    rewrite (length_writeInt16LE _ _ _ _ Ew). lia.
Qed.

(** The downmix of the other copy on a buffer of [n] stereo samples: [n] mono
    samples, each computed from the two samples of its pair. *)
Lemma Revised_convertStereoToMono_mean n stereoBuffer :
  length stereoBuffer = 4 * n ->
  exists mono,
    Revised.convertStereoToMono stereoBuffer = Some mono /\
    length mono = 2 * n /\
    forall j, j < n ->
      exists leftSample rightSample,
        readInt16LE stereoBuffer (j * 4) = Some leftSample /\
        readInt16LE stereoBuffer (j * 4 + 2) = Some rightSample /\
        readInt16LE mono (j * 2) = Some (Revised.monoSampleOf leftSample rightSample).
Proof.
  intros Hl. unfold Revised.convertStereoToMono. rewrite Hl.
  destruct (aligned_counts n) as [-> ->].
  destruct (Revised_convertLoop_defined n 0 stereoBuffer (alloc (2 * n))) as [mono Hm];
    [lia | rewrite length_alloc; lia |].
  exists mono. split; [exact Hm|].
  apply Revised_convertLoop_spec in Hm as (L & _ & B).
  split; [rewrite L; apply length_alloc|].
  intros j Hj. apply B. lia.
Qed.

(** The two sample pairs of the specification, in the other copy: 0 and
    32767. *)
Example Revised_downmix_examples :
  Revised.convertStereoToMono [xff; x7f; x00; x80] = Some [x00; x00] /\
  Revised.convertStereoToMono [xff; x7f; xff; x7f] = Some [xff; x7f] /\
  Revised.monoSampleOf 32767 (-32768) = 0%Z /\
  Revised.monoSampleOf 32767 32767 = 32767%Z /\
  Revised.monoChunkOf 3 [xff; x7f; x00; x80; x01; x00] =
    Some [xff; x7f; x00; x80; x01; x00].
Proof. vm_compute. repeat split. Qed.

(** ** Frame assembly *)

Section Blocks.

Variable size : nat.
Hypothesis size_pos : 0 < size.

Lemma framesOf_short stream : length stream < size -> framesOf size stream = [].
Proof.
  intros H. unfold framesOf. rewrite Nat.div_small by exact H. reflexivity.
Qed.

Lemma framesOf_block frame stream :
  length frame = size ->
  framesOf size (frame ++ stream) = frame :: framesOf size stream.
Proof.
  intros Hf. unfold framesOf.
  assert (Hd : length (frame ++ stream) / size = S (length stream / size)).
  { rewrite length_app, Hf.
    replace (size + length stream) with (length stream + 1 * size) by lia.
    rewrite Nat.div_add by lia. lia. }
  rewrite Hd. cbn [seq map]. f_equal.
  - cbn [Nat.mul skipn]. rewrite firstn_app, Hf, Nat.sub_diag.
    cbn [firstn]. rewrite app_nil_r. rewrite <- Hf. apply firstn_all.
  - rewrite <- seq_shift, map_map. apply map_ext. intros k. f_equal.
    replace (S k * size) with (length frame + k * size) by (rewrite Hf; simpl; lia).
    rewrite skipn_app.
    replace (length frame + k * size - length frame) with (k * size) by lia.
    rewrite skipn_all2 by lia. reflexivity.
Qed.

(** A stream cut into blocks of [size] bytes and a shorter rest is cut in
    the one possible way. *)
Lemma split_unique frames : forall rest stream,
  stream = concat frames ++ rest ->
  Forall (fun frame => length frame = size) frames ->
  length rest < size ->
  frames = framesOf size stream /\
  rest = residualOf size stream /\
  length frames = length stream / size.
Proof.
  induction frames as [|frame frames IH]; intros rest stream Hs Hf Hr.
  - simpl in Hs. subst stream. unfold residualOf.
    rewrite framesOf_short by exact Hr. rewrite Nat.div_small by exact Hr.
    rewrite Nat.mul_0_r. repeat split.
  - pose proof (Forall_inv Hf) as Hl. pose proof (Forall_inv_tail Hf) as Hf'.
    cbv beta in Hl. subst stream.
    destruct (IH rest (concat frames ++ rest) eq_refl Hf' Hr) as (A & B & C).
    simpl concat. rewrite <- app_assoc.
    rewrite framesOf_block by exact Hl.
    assert (Hd : length (frame ++ concat frames ++ rest) / size =
                 S (length (concat frames ++ rest) / size)).
    { rewrite (length_app frame), Hl.
      replace (size + length (concat frames ++ rest))
        with (length (concat frames ++ rest) + 1 * size) by lia.
      rewrite Nat.div_add by lia. lia. }
    split; [f_equal; exact A|]. split.
    + unfold residualOf. rewrite Hd.
      replace (size * S (length (concat frames ++ rest) / size))
        with (length frame + size * (length (concat frames ++ rest) / size)) by lia.
      rewrite skipn_app.
      replace (length frame + size * (length (concat frames ++ rest) / size) - length frame)
        with (size * (length (concat frames ++ rest) / size)) by lia.
      rewrite skipn_all2 by lia. exact B.
    + rewrite Hd. simpl. f_equal. exact C.
Qed.

End Blocks.

Lemma CHUNK_SIZE_samples : CHUNK_SIZE = 4 * 2400.
Proof. vm_compute. reflexivity. Qed.

Lemma CHUNK_SIZE_le_max : CHUNK_SIZE <= maxBufferSize.
Proof. apply Nat.leb_le. vm_compute. reflexivity. Qed.

Section FrameLoopFacts.

Variable toBase64 : Buffer -> str.
Variable chunkSize : nat.
Hypothesis chunkSize_pos : 0 < chunkSize.
Variable samples : nat.
Hypothesis chunkSize_samples : chunkSize = 4 * samples.

(** The loop of the listener cuts its buffer into frames of [chunkSize]
    bytes and a shorter rest, hands the downmix of each frame on, and ends
    normally. *)
Lemma drain_split buffer :
  exists frames,
    buffer = concat frames ++ snd (fst (drain toBase64 chunkSize_pos buffer)) /\
    Forall (fun frame => length frame = chunkSize) frames /\
    length (snd (fst (drain toBase64 chunkSize_pos buffer))) < chunkSize /\
    map Some (fst (fst (drain toBase64 chunkSize_pos buffer))) =
      map (fun frame => option_map toBase64 (convertStereoToMono frame)) frames /\
    snd (drain toBase64 chunkSize_pos buffer) = true.
Proof.
  funelim (drain toBase64 chunkSize_pos buffer).
  - exists []. simpl. repeat split; [constructor | assumption].
  - exfalso.
    destruct (convertStereoToMono_left samples (firstn chunkSize buffered))
      as (mono & Hm & _).
    + rewrite length_firstn, Nat.min_l by exact l. apply chunkSize_samples.
    + congruence.
  - destruct Hind as (frames & Hb & Hf & Hr & Hm & Hk).
    rewrite Heq in Hb, Hr, Hm, Hk. cbn [fst snd] in *.
    exists (firstn chunkSize buffered :: frames).
    split; [|split; [|split; [|split]]].
    + simpl concat. rewrite <- app_assoc, <- Hb. symmetry. apply firstn_skipn.
    + constructor; [|exact Hf]. rewrite length_firstn. apply Nat.min_l. exact l.
    + exact Hr.
    + cbn [map]. rewrite Heq0, Hm. reflexivity.
    + exact Hk.
Qed.

End FrameLoopFacts.

Section CaptureFacts.

Variable toBase64 : Buffer -> str.

#[local] Opaque CHUNK_SIZE maxBufferSize.

(** One run of the listener: the frames of the buffered bytes are handed on,
    the rest is kept, and the guard on the size of the rest has nothing to
    cut. *)
Lemma onData_split data c :
  exists frames,
    audioBuffer c ++ data = concat frames ++ audioBuffer (onData toBase64 data c) /\
    Forall (fun frame => length frame = CHUNK_SIZE) frames /\
    length (audioBuffer (onData toBase64 data c)) < CHUNK_SIZE /\
    map Some (enqueued (onData toBase64 data c)) =
      map Some (enqueued c) ++
      map (fun frame => option_map toBase64 (convertStereoToMono frame)) frames.
Proof.
  destruct (@drain_split toBase64 _ CHUNK_SIZE_pos _ CHUNK_SIZE_samples (audioBuffer c ++ data))
    as (frames & Hb & Hf & Hr & Hm & Hk).
  unfold onData.
  destruct (drain toBase64 CHUNK_SIZE_pos (audioBuffer c ++ data)) as [[out rest] ok].
  cbn [fst snd] in *. subst ok.
  assert (Hg : (maxBufferSize <? length rest) = false).
  { apply Nat.ltb_ge. pose proof CHUNK_SIZE_le_max. lia. }
  rewrite Hg. cbn [audioBuffer enqueued].
  exists frames. rewrite map_app, Hm. auto.
Qed.

Lemma fold_left_cons {A B : Type} (f : A -> B -> A) x l a :
  fold_left f (x :: l) a = fold_left f l (f a x).
Proof. reflexivity. Qed.

Lemma feed_cons data chunks c :
  feed toBase64 (data :: chunks) c = feed toBase64 chunks (onData toBase64 data c).
Proof. exact (fold_left_cons (fun c data => onData toBase64 data c) data chunks c). Qed.

Lemma feed_nil c : feed toBase64 [] c = c.
Proof. exact (@eq_refl Capture c). Qed.

Lemma feed_split chunks : forall c,
  exists frames,
    audioBuffer c ++ concat chunks =
      concat frames ++ audioBuffer (feed toBase64 chunks c) /\
    Forall (fun frame => length frame = CHUNK_SIZE) frames /\
    (length (audioBuffer c) < CHUNK_SIZE ->
     length (audioBuffer (feed toBase64 chunks c)) < CHUNK_SIZE) /\
    map Some (enqueued (feed toBase64 chunks c)) =
      map Some (enqueued c) ++
      map (fun frame => option_map toBase64 (convertStereoToMono frame)) frames.
Proof.
  induction chunks as [|data chunks IH]; intros c.
  - exists []. rewrite feed_nil.
    split; [simpl; rewrite app_nil_r; reflexivity|].
    split; [constructor|]. split; [auto|].
    simpl. rewrite app_nil_r. reflexivity.
  - destruct (onData_split data c) as (f1 & B1 & F1 & R1 & M1).
    destruct (IH (onData toBase64 data c)) as (f2 & B2 & F2 & R2 & M2).
    exists (f1 ++ f2). rewrite feed_cons.
    split; [|split; [|split]].
    + change (concat (data :: chunks)) with (data ++ concat chunks).
      rewrite app_assoc, B1, <- app_assoc, B2, concat_app, app_assoc. reflexivity.
    + apply Forall_app. split; assumption.
    + intros _. apply R2. exact R1.
    + rewrite M2, M1, map_app, app_assoc. reflexivity.
Qed.

(** C6: fed with the chunks of a stream in order, starting with an empty
    buffer, the listener hands on the downmix of every frame of the stream, in
    order: the frames are the consecutive blocks of [CHUNK_SIZE] bytes of the
    concatenated chunks, [floor(total / CHUNK_SIZE)] of them, each of
    [CHUNK_SIZE] bytes, and the buffer it keeps is the part of the stream after
    the last full block. *)
Theorem frames_of_stream chunks :
  let stream := concat chunks in
  let c := feed toBase64 chunks startCapture in
  map Some (enqueued c) =
    map (fun frame => option_map toBase64 (convertStereoToMono frame))
      (framesOf CHUNK_SIZE stream) /\
  length (enqueued c) = length stream / CHUNK_SIZE /\
  Forall (fun frame => length frame = CHUNK_SIZE) (framesOf CHUNK_SIZE stream) /\
  audioBuffer c = residualOf CHUNK_SIZE stream /\
  concat (framesOf CHUNK_SIZE stream) ++ audioBuffer c = stream.
Proof.
  cbv zeta.
  destruct (feed_split chunks startCapture) as (frames & B & F & R & M).
  change (audioBuffer startCapture) with (@nil byte) in B, R.
  change (enqueued startCapture) with (@nil str) in M.
  rewrite app_nil_l in B. change (map Some []) with (@nil (option str)) in M.
  rewrite app_nil_l in M.
  specialize (R CHUNK_SIZE_pos).
  destruct (split_unique _ CHUNK_SIZE_pos frames _ _ B F R) as (E1 & E2 & E3).
  rewrite <- E1, <- E2.
  split; [exact M|]. split.
  - rewrite <- E3, <- (length_map Some), M, length_map. reflexivity.
  - split; [exact F|]. split; [reflexivity | symmetry; exact B].
Qed.

End CaptureFacts.

(** * Further properties *)

(** ** Cleaning a transcript *)

Lemma singleSpaced_collapseFrom s : forall b,
  singleSpaced b (collapseFrom b s) = true.
Proof.
  induction s as [|c r IH]; intros b; [reflexivity|].
  simpl. destruct (isWhiteSpace c) eqn:E.
  - destruct b; [apply IH|].
    simpl. rewrite IH. reflexivity.
  - simpl. rewrite E. apply IH.
Qed.

Lemma collapseFrom_singleSpaced s : forall b,
  singleSpaced b s = true -> collapseFrom b s = s.
Proof.
  induction s as [|c r IH]; intros b H; [reflexivity|].
  simpl in *. destruct (isWhiteSpace c).
  - destruct b; [discriminate|]. simpl in H.
    apply andb_true_iff in H as [Hc Hr]. apply N.eqb_eq in Hc. subst c.
    rewrite (IH _ Hr). reflexivity.
  - rewrite (IH _ H). reflexivity.
Qed.

Lemma singleSpaced_weaken s :
  singleSpaced true s = true -> singleSpaced false s = true.
Proof.
  destruct s as [|c r]; [reflexivity|]. simpl.
  destruct (isWhiteSpace c); [discriminate | auto].
Qed.

Lemma singleSpaced_trimStart s : forall b,
  singleSpaced b s = true -> singleSpaced true (trimStart s) = true.
Proof.
  induction s as [|c r IH]; intros b H; [reflexivity|].
  simpl in *. destruct (isWhiteSpace c) eqn:E.
  - apply andb_true_iff in H as [_ Hr]. exact (IH _ Hr).
  - simpl. rewrite E. exact H.
Qed.

Lemma singleSpaced_prefix a : forall b c,
  singleSpaced b (a ++ c) = true -> singleSpaced b a = true.
Proof.
  induction a as [|x a IH]; intros b c H; [reflexivity|].
  simpl in *. destruct (isWhiteSpace x).
  - apply andb_true_iff in H as [H1 H2]. rewrite H1. simpl. exact (IH _ _ H2).
  - exact (IH _ _ H).
Qed.

Lemma trimStart_split s :
  exists spaces, s = spaces ++ trimStart s /\
                 Forall (fun c => isWhiteSpace c = true) spaces.
Proof.
  induction s as [|c r [spaces [E F]]].
  - exists []. split; [reflexivity | constructor].
  - simpl. destruct (isWhiteSpace c) eqn:Ec.
    + exists (c :: spaces). split; [simpl; f_equal; exact E|].
      constructor; assumption.
    + exists []. split; [reflexivity | constructor].
Qed.

Lemma trimStart_head s :
  match trimStart s with
  | c :: _ => isWhiteSpace c = false
  | [] => True
  end.
Proof.
  induction s as [|c r IH]; [exact I|].
  simpl. destruct (isWhiteSpace c) eqn:E; [exact IH | exact E].
Qed.

Lemma trimStart_fixed s :
  match s with c :: _ => isWhiteSpace c = false | [] => True end ->
  trimStart s = s.
Proof. destruct s as [|c r]; [reflexivity|]. simpl. intros ->. reflexivity. Qed.

Lemma trimEnd_split s :
  exists spaces, s = trimEnd s ++ spaces /\
                 Forall (fun c => isWhiteSpace c = true) spaces.
Proof.
  destruct (trimStart_split (rev s)) as [spaces [E F]].
  exists (rev spaces). split.
  - unfold trimEnd. rewrite <- rev_app_distr, <- E, rev_involutive. reflexivity.
  - apply Forall_rev. exact F.
Qed.

Lemma endsWithWhiteSpace_trimEnd s : endsWithWhiteSpace (trimEnd s) = false.
Proof.
  unfold endsWithWhiteSpace, trimEnd. rewrite rev_involutive.
  pose proof (trimStart_head (rev s)) as H.
  destruct (trimStart (rev s)); [reflexivity | exact H].
Qed.

Lemma normalForm_trim s : singleSpaced false s = true -> normalForm (trim s) = true.
Proof.
  intros H. unfold normalForm, trim.
  rewrite endsWithWhiteSpace_trimEnd. rewrite andb_true_r.
  destruct (trimEnd_split (trimStart s)) as [spaces [E _]].
  apply singleSpaced_prefix with (c := spaces). rewrite <- E.
  exact (singleSpaced_trimStart _ _ H).
Qed.

Lemma trim_normalForm s : normalForm s = true -> trim s = s.
Proof.
  unfold normalForm. intros H. apply andb_true_iff in H as [H1 H2].
  apply negb_true_iff in H2. unfold trim.
  assert (Hs : trimStart s = s).
  { apply trimStart_fixed. destruct s as [|c r]; [exact I|].
    simpl in H1. destruct (isWhiteSpace c); [discriminate | reflexivity]. }
  rewrite Hs. unfold trimEnd. unfold endsWithWhiteSpace in H2.
  rewrite trimStart_fixed; [apply rev_involutive|].
  destruct (rev s); [exact I | exact H2].
Qed.

Lemma normalForm_cleanTranscript rawTranscript :
  normalForm (cleanTranscript rawTranscript) = true.
Proof.
  destruct rawTranscript as [raw|b]; [|reflexivity].
  apply normalForm_trim. apply singleSpaced_collapseFrom.
Qed.

Lemma cleanTranscript_normalForm s :
  normalForm s = true -> cleanTranscript (VString s) = s.
Proof.
  intros H. unfold cleanTranscript, replaceWhiteSpaceRuns.
  rewrite collapseFrom_singleSpaced.
  - apply trim_normalForm. exact H.
  - apply singleSpaced_weaken. unfold normalForm in H.
    apply andb_true_iff in H as [H _]. exact H.
Qed.

Lemma singleSpaced_at pre : forall b c post,
  singleSpaced b (pre ++ c :: post) = true ->
  isWhiteSpace c = true ->
  c = 32%N /\
  (pre = [] -> b = false) /\
  (forall pre' a, pre = pre' ++ [a] -> isWhiteSpace a = false) /\
  match post with
  | next :: _ => isWhiteSpace next = false
  | [] => True
  end.
Proof.
  induction pre as [|x pre IH]; intros b c post H Hc.
  - simpl in H. rewrite Hc in H.
    apply andb_true_iff in H as [H1 H3]. apply andb_true_iff in H1 as [H1 H2].
    apply N.eqb_eq in H2. apply negb_true_iff in H1.
    split; [exact H2|]. split; [auto|]. split.
    + intros pre' a E. destruct pre'; discriminate.
    + destruct post as [|next post']; [exact I|].
      simpl in H3. destruct (isWhiteSpace next); [discriminate | reflexivity].
  - simpl in H. destruct (isWhiteSpace x) eqn:Ex.
    + apply andb_true_iff in H as [_ H].
      destruct (IH _ _ _ H Hc) as (A & B & C & D).
      split; [exact A|]. split; [discriminate|]. split; [|exact D].
      intros pre' a E. destruct pre' as [|y pre'].
      * simpl in E. injection E as -> Ep. specialize (B Ep). discriminate.
      * simpl in E. injection E as _ Ep. exact (C _ _ Ep).
    + destruct (IH _ _ _ H Hc) as (A & B & C & D).
      split; [exact A|]. split; [discriminate|]. split; [|exact D].
      intros pre' a E. destruct pre' as [|y pre'].
      * simpl in E. injection E as -> Ep. exact Ex.
      * simpl in E. injection E as _ Ep. exact (C _ _ Ep).
Qed.

(** X1: in a cleaned transcript every white-space code unit is a space
    (U+0020) that has a code unit before it and one after it, neither of them
    white space: no white space at the ends, no runs, no tabs or line breaks. *)
Theorem cleaned_transcript_single_spaces rawTranscript pre c post :
  cleanTranscript rawTranscript = pre ++ c :: post ->
  isWhiteSpace c = true ->
  c = 32%N /\
  (exists pre' before, pre = pre' ++ [before] /\ isWhiteSpace before = false) /\
  (exists after post', post = after :: post' /\ isWhiteSpace after = false).
Proof.
  intros E Hc.
  pose proof (normalForm_cleanTranscript rawTranscript) as N.
  rewrite E in N. unfold normalForm in N.
  apply andb_true_iff in N as [N1 N2]. apply negb_true_iff in N2.
  destruct (singleSpaced_at _ _ _ _ N1 Hc) as (A & B & C & D).
  split; [exact A|]. split.
  - destruct (@exists_last _ pre) as (pre' & before & Ep).
    + intros Ep. specialize (B Ep). discriminate.
    + exists pre', before. split; [exact Ep | exact (C _ _ Ep)].
  - destruct post as [|after post'].
    + exfalso. unfold endsWithWhiteSpace in N2.
      rewrite rev_app_distr in N2. simpl in N2. congruence.
    + exists after, post'. split; [reflexivity | exact D].
Qed.

Lemma cleaned_transcript_single_spaces_witness :
  cleanTranscript (VString (lit "  a  b ")) = lit "a" ++ 32%N :: lit "b" /\
  isWhiteSpace 32 = true /\
  32%N = 32%N.
Proof.
  assert (E : cleanTranscript (VString (lit "  a  b ")) = lit "a" ++ 32%N :: lit "b")
    by reflexivity.
  split; [exact E|]. split; [reflexivity|].
  exact (proj1 (cleaned_transcript_single_spaces _ _ _ _ E eq_refl)).
Defined.

(** X2: cleaning is idempotent: a cleaned transcript submitted again is
    cleaned to itself, so the duplicate tests compare it with what was stored. *)
Theorem cleanTranscript_idempotent rawTranscript :
  cleanTranscript (VString (cleanTranscript rawTranscript)) = cleanTranscript rawTranscript.
Proof. apply cleanTranscript_normalForm. apply normalForm_cleanTranscript. Qed.

(** ** The gate, once a transcript is accepted *)

Section GateFacts.

Variable clock : nat -> N.
Variable getSystemPrompt : option PromptFunction.
Variable generateReply : GenerateRequest -> ReplyOutcome.

Lemma buildCerebrasHistory_app s turns :
  buildCerebrasHistory (set_conversationHistory (conversationHistory s ++ turns) s) =
  buildCerebrasHistory s ++
  buildCerebrasHistory (set_conversationHistory turns s).
Proof. unfold buildCerebrasHistory. simpl. apply flat_map_app. Qed.

(** The state the gate leaves for an accepted transcript, in a session, and
    how the call of [respondWithCerebras] made for it goes. *)
Lemma gate_accepted_in_session rawTranscript s :
  active (sessionState s) = true ->
  4 <= length (cleanTranscript rawTranscript) ->
  isDuplicate (cleanTranscript rawTranscript) s = false ->
  hasSession s = true ->
  let cleaned := cleanTranscript rawTranscript in
  let turn := {| timestamp := clock (clockReads s);
                 transcription := cleaned; ai_response := [] |} in
  handleCartesiaTranscript_request clock getSystemPrompt rawTranscript s =
  ({| currentSessionId := currentSessionId s;
      conversationHistory := conversationHistory s ++ [turn];
      sessionState := sessionState s;
      lastProcessedTranscript := cleaned;
      recentTranscripts := setAdd cleaned (evictOldest (recentTranscripts s));
      ttsQueue := ttsQueue s;
      sent := sent s ++
        SaveConversationTurn (currentSessionId s) turn (conversationHistory s ++ [turn])
        :: match getSystemPrompt with
           | None => []
           | Some _ => [UpdateStatus (lit "Responding...")]
           end;
      clockReads := S (clockReads s) |},
   Some (cleaned,
         match getSystemPrompt with
         | None => Thrown (lit "getSystemPrompt is not defined")
         | Some prompt =>
             Awaiting
               {| context := cleaned;
                  history := buildCerebrasHistory s ++
                             [{| role := User; content := cleaned |}];
                  systemPrompt := prompt (lit "default") (customPrompt (sessionState s))
                                    (googleSearchEnabled (sessionState s)) |}
         end)).
Proof.
  intros Ha Hl Hd Hs. cbv zeta.
  rewrite (gate_accepts clock getSystemPrompt rawTranscript s Ha Hl Hd).
  rewrite saveConversationTurn_spec.
  replace (hasSession (set_dedup _ _ s)) with (hasSession s) by reflexivity.
  rewrite Hs.
  assert (Ht : trim (cleanTranscript rawTranscript) = cleanTranscript rawTranscript)
    by (apply trim_normalForm, normalForm_cleanTranscript).
  assert (Hy : truthy (cleanTranscript rawTranscript) = true)
    by (apply truthy_length; lia).
  unfold respondWithCerebras_request.
  destruct getSystemPrompt as [prompt|]; cbn [fst snd];
    unfold buildCerebrasHistory, sendToRenderer, set_sent, set_dedup;
    cbn [conversationHistory sessionState sent currentSessionId lastProcessedTranscript
         recentTranscripts ttsQueue clockReads];
    rewrite ?flat_map_app; cbn [flat_map transcription ai_response];
    rewrite Ht, ?Hy; cbn [truthy trim trimStart trimEnd rev app];
    rewrite <- ?app_assoc; reflexivity.
Qed.

(** X3: a transcript the gate accepts in a session is recorded as one new
    turn whose transcription is the cleaned transcript itself and whose response
    is empty; the cleaned transcript becomes the last processed one; and
    [respondWithCerebras] is called for it.  In the file as it stands
    ([getSystemPrompt] not bound) that call throws the [ReferenceError] and no
    request is made.  With a global [getSystemPrompt] supplied the request
    carries the transcript twice, as the context and as the last user entry of
    the history, after the history of the earlier turns. *)
Theorem accepted_transcript_recorded rawTranscript s :
  active (sessionState s) = true ->
  4 <= length (cleanTranscript rawTranscript) ->
  isDuplicate (cleanTranscript rawTranscript) s = false ->
  hasSession s = true ->
  let cleaned := cleanTranscript rawTranscript in
  let s' := fst (handleCartesiaTranscript_request clock getSystemPrompt rawTranscript s) in
  conversationHistory s' =
    conversationHistory s ++
    [{| timestamp := clock (clockReads s); transcription := cleaned; ai_response := [] |}] /\
  lastProcessedTranscript s' = cleaned /\
  snd (handleCartesiaTranscript_request clock getSystemPrompt rawTranscript s) =
    Some (cleaned,
          match getSystemPrompt with
          | None => Thrown (lit "getSystemPrompt is not defined")
          | Some prompt =>
              Awaiting
                {| context := cleaned;
                   history := buildCerebrasHistory s ++
                              [{| role := User; content := cleaned |}];
                   systemPrompt := prompt (lit "default") (customPrompt (sessionState s))
                                     (googleSearchEnabled (sessionState s)) |}
          end).
Proof.
  intros Ha Hl Hd Hs. cbv zeta.
  rewrite (gate_accepted_in_session rawTranscript s Ha Hl Hd Hs). cbn [fst snd].
  split; [reflexivity|]. split; reflexivity.
Qed.

(** In the file as it stands, what a whole call of [handleCartesiaTranscript]
    does with an accepted transcript is what the gate does: the error thrown by
    [respondWithCerebras] is caught. *)
Lemma unbound_accepted rawTranscript s :
  active (sessionState s) = true ->
  4 <= length (cleanTranscript rawTranscript) ->
  isDuplicate (cleanTranscript rawTranscript) s = false ->
  let cleaned := cleanTranscript rawTranscript in
  handleCartesiaTranscript clock unbound generateReply rawTranscript s =
  saveConversationTurn clock cleaned []
    (set_dedup cleaned (setAdd cleaned (evictOldest (recentTranscripts s))) s).
Proof.
  intros Ha Hl Hd. cbv zeta. unfold handleCartesiaTranscript.
  rewrite (gate_accepts clock unbound rawTranscript s Ha Hl Hd). reflexivity.
Qed.

(** C1: in the file as it stands no reply is ever generated for a transcript,
    whatever the generator would answer.  For a transcript the gate accepts,
    [respondWithCerebras] throws where it evaluates [getSystemPrompt], before
    the generator is called, and [handleCartesiaTranscript] catches the error.
    What is left is the turn of the gate: the log of the session gets this one
    turn, its response empty; the only message sent is the save of that turn, so
    no reply goes to the renderer; and the synthesis queue is as it was. *)
Theorem accepted_transcript_never_answered rawTranscript s :
  active (sessionState s) = true ->
  4 <= length (cleanTranscript rawTranscript) ->
  isDuplicate (cleanTranscript rawTranscript) s = false ->
  let cleaned := cleanTranscript rawTranscript in
  let s' := handleCartesiaTranscript clock unbound generateReply rawTranscript s in
  let sessionLog := if hasSession s then conversationHistory s else [] in
  exists turn,
    transcription turn = cleaned /\
    ai_response turn = [] /\
    conversationHistory s' = sessionLog ++ [turn] /\
    sent s' =
      sent s ++ [SaveConversationTurn (currentSessionId s') turn (sessionLog ++ [turn])] /\
    ttsQueue s' = ttsQueue s.
Proof.
  intros Ha Hl Hd. cbv zeta.
  rewrite (unbound_accepted rawTranscript s Ha Hl Hd), saveConversationTurn_spec.
  replace (hasSession (set_dedup _ _ s)) with (hasSession s) by reflexivity.
  assert (Ht : trim (cleanTranscript rawTranscript) = cleanTranscript rawTranscript)
    by (apply trim_normalForm, normalForm_cleanTranscript).
  rewrite Ht.
  destruct (hasSession s).
  - exists {| timestamp := clock (clockReads s);
              transcription := cleanTranscript rawTranscript; ai_response := [] |}.
    cbn -[toString cleanTranscript]. repeat split.
  - exists {| timestamp := clock (S (clockReads s));
              transcription := cleanTranscript rawTranscript; ai_response := [] |}.
    cbn -[toString cleanTranscript]. repeat split.
Qed.

(** *** The window of recent transcripts *)

Lemma NoDup_setAdd x l : NoDup l -> NoDup (setAdd x l).
Proof.
  intros H. unfold setAdd. destruct (setHas x l) eqn:E; [exact H|].
  apply setHas_false in E.
  apply NoDup_rev in H. rewrite <- (rev_involutive (l ++ [x])).
  apply NoDup_rev. rewrite rev_app_distr. simpl. constructor; [|exact H].
  rewrite <- in_rev. exact E.
Qed.

Lemma NoDup_evictOldest recent : NoDup recent -> NoDup (evictOldest recent).
Proof.
  intros H. unfold evictOldest. destruct (12 <? length recent); [|exact H].
  destruct recent as [|first rest]; [exact H|].
  destruct (truthy first); [|exact H].
  rewrite setDelete_head. inversion H; assumption.
Qed.

Lemma windowInvariant_truthy s :
  windowInvariant s -> Forall (fun x => truthy x = true) (recentTranscripts s).
Proof.
  intros (_ & F & _). eapply Forall_impl; [|exact F].
  intros t [_ Ht]. apply truthy_length. lia.
Qed.

Lemma windowInvariant_saveConversationTurn transcription0 aiResponse s :
  windowInvariant s ->
  windowInvariant (saveConversationTurn clock transcription0 aiResponse s).
Proof.
  intros H. rewrite saveConversationTurn_spec. unfold windowInvariant.
  cbn [recentTranscripts]. destruct (hasSession s); [exact H|].
  simpl. split; [constructor|]. split; [constructor | lia].
Qed.

(** X4: the window of recent transcripts keeps its shape through everything
    the module does with transcripts and replies: its entries are pairwise
    distinct, each a cleaned transcript of at least 4 code units, and never more
    than 13; a new session starts with the empty window. *)
Theorem window_invariant_kept rawTranscript transcript outcome s :
  recentTranscripts (initializeNewSession clock s) = [] /\
  windowInvariant (initializeNewSession clock s) /\
  (windowInvariant s ->
   windowInvariant
     (fst (handleCartesiaTranscript_request clock getSystemPrompt rawTranscript s)) /\
   windowInvariant (respondWithCerebras_resume clock transcript outcome s)).
Proof.
  split; [reflexivity|]. split.
  { unfold windowInvariant. simpl. split; [constructor|].
    split; [constructor | lia]. }
  intros H. split.
  - destruct (gate_state clock getSystemPrompt rawTranscript s) as [G|(E & _ & G)];
      rewrite G; cbn [fst]; [exact H|].
    unfold windowInvariant. rewrite respondWithCerebras_request_recent.
    assert (W : windowInvariant
                  (set_dedup (cleanTranscript rawTranscript)
                     (setAdd (cleanTranscript rawTranscript)
                        (evictOldest (recentTranscripts s))) s)).
    { pose proof (windowInvariant_truthy s H) as Ht.
      destruct H as (N & F & L). unfold windowInvariant. cbn [recentTranscripts set_dedup].
      split; [apply NoDup_setAdd, NoDup_evictOldest, N|]. split.
      - unfold setAdd. destruct (setHas _ (evictOldest _)).
        + apply Forall_forall. intros x Hx.
          apply evictOldest_incl in Hx.
          exact (proj1 (Forall_forall _ _) F x Hx).
        + apply Forall_app. split.
          * apply Forall_forall. intros x Hx.
            apply evictOldest_incl in Hx.
            exact (proj1 (Forall_forall _ _) F x Hx).
          * constructor; [|constructor].
            split; [apply normalForm_cleanTranscript | exact E].
      - rewrite setAdd_length.
        pose proof (evictOldest_length _ Ht L).
        destruct (setHas _ (evictOldest _)); lia. }
    apply (windowInvariant_saveConversationTurn (cleanTranscript rawTranscript) []) in W.
    exact W.
  - assert (S1 : forall m s0, windowInvariant s0 -> windowInvariant (sendToRenderer m s0))
      by (intros m s0 W; exact W).
    unfold respondWithCerebras_resume.
    destruct outcome as [[reply|]|]; try (apply S1; exact H).
    destruct (truthy reply); [|apply S1; exact H].
    apply S1. rewrite queueTtsSynthesis_spec.
    assert (W : windowInvariant
                  (saveConversationTurn clock transcript reply
                     (sendToRenderer (UpdateResponse reply) s)))
      by (apply windowInvariant_saveConversationTurn, S1, H).
    destruct (length (trim reply) <? 12); exact W.
Qed.

End GateFacts.

Lemma accepted_transcript_recorded_witness :
  active (sessionState activeState) = true /\
  4 <= length (cleanTranscript (VString exampleQuestion)) /\
  isDuplicate (cleanTranscript (VString exampleQuestion)) activeState = false /\
  hasSession activeState = true /\
  lastProcessedTranscript questionAsked = cleanTranscript (VString exampleQuestion).
Proof.
  assert (Hl : 4 <= length (cleanTranscript (VString exampleQuestion)))
    by (vm_compute; lia).
  split; [reflexivity|]. split; [exact Hl|]. split; [reflexivity|].
  split; [reflexivity|].
  exact (proj1 (proj2 (accepted_transcript_recorded exampleClock unbound
                         (VString exampleQuestion) activeState
                         eq_refl Hl eq_refl eq_refl))).
Defined.

Lemma accepted_transcript_never_answered_witness :
  active (sessionState activeState) = true /\
  4 <= length (cleanTranscript (VString exampleQuestion)) /\
  isDuplicate (cleanTranscript (VString exampleQuestion)) activeState = false /\
  exists turn,
    transcription turn = exampleQuestion /\
    ai_response turn = [] /\
    conversationHistory
      (handleCartesiaTranscript exampleClock unbound exampleGenerate
         (VString exampleQuestion) activeState) = [turn] /\
    ttsQueue
      (handleCartesiaTranscript exampleClock unbound exampleGenerate
         (VString exampleQuestion) activeState) = Resolved.
Proof.
  assert (Hl : 4 <= length (cleanTranscript (VString exampleQuestion)))
    by (vm_compute; lia).
  split; [reflexivity|]. split; [exact Hl|]. split; [reflexivity|].
  destruct (accepted_transcript_never_answered exampleClock exampleGenerate
              (VString exampleQuestion) activeState eq_refl Hl eq_refl)
    as (turn & T1 & T2 & T3 & _ & T5).
  exists turn. split; [exact T1|]. split; [exact T2|]. split; [exact T3 | exact T5].
Defined.

Lemma window_invariant_kept_witness :
  windowInvariant activeState /\
  windowInvariant questionAsked /\
  windowInvariant
    (respondWithCerebras_resume exampleClock exampleQuestion
       (Fulfils (Some exampleReply)) activeState).
Proof.
  assert (W : windowInvariant activeState).
  { unfold windowInvariant. simpl. split; [constructor|].
    split; [constructor | lia]. }
  destruct (proj2 (proj2 (window_invariant_kept exampleClock unbound
                     (VString exampleQuestion) exampleQuestion
                     (Fulfils (Some exampleReply)) activeState)) W) as [A B].
  split; [exact W|]. split; [exact A | exact B].
Defined.

Section WindowOrder.

Variable clock : nat -> N.
Variable getSystemPrompt : option PromptFunction.

Lemma submitAll_snoc transcripts raw s :
  submitAll clock getSystemPrompt (transcripts ++ [raw]) s =
  fst (handleCartesiaTranscript_request clock getSystemPrompt (VString raw)
         (submitAll clock getSystemPrompt transcripts s)).
Proof. unfold submitAll. rewrite fold_left_app. reflexivity. Qed.

Lemma In_skipn (x : str) k l : In x (skipn k l) -> In x l.
Proof.
  intros H. rewrite <- (firstn_skipn k l). apply in_or_app. right. exact H.
Qed.

Lemma last_In (l : list str) d : l <> [] -> In (last l d) l.
Proof.
  intros H. destruct (@exists_last _ l H) as (l' & x & ->).
  rewrite last_last. apply in_or_app. right. left. reflexivity.
Qed.

Lemma window_after_submissions transcripts : forall s,
  active (sessionState s) = true ->
  hasSession s = true ->
  recentTranscripts s = [] ->
  lastProcessedTranscript s = [] ->
  NoDup transcripts ->
  Forall (fun t => normalForm t = true /\ 4 <= length t) transcripts ->
  let s' := submitAll clock getSystemPrompt transcripts s in
  active (sessionState s') = true /\
  hasSession s' = true /\
  lastProcessedTranscript s' = last transcripts [] /\
  recentTranscripts s' = skipn (length transcripts - 13) transcripts.
Proof.
  induction transcripts as [|t ts IH] using rev_ind; intros s Ha Hs Hr Hl Hn Hf.
  - simpl. auto.
  - cbv zeta. rewrite submitAll_snoc.
    apply Forall_app in Hf as [Hf Ht].
    apply Forall_inv in Ht as [Ht1 Ht2].
    pose proof (NoDup_remove_1 _ _ _ Hn) as Hn1.
    pose proof (NoDup_remove_2 _ _ _ Hn) as Hn2.
    rewrite app_nil_r in Hn1, Hn2.
    destruct (IH s Ha Hs Hr Hl Hn1 Hf) as (Ia & Is & Il & Ir).
    set (s1 := submitAll clock getSystemPrompt ts s) in *.
    assert (Hc : cleanTranscript (VString t) = t)
      by (apply cleanTranscript_normalForm; exact Ht1).
    assert (Hd : isDuplicate (cleanTranscript (VString t)) s1 = false).
    { rewrite Hc. unfold isDuplicate. apply orb_false_iff. split.
      - apply eqb_neq. rewrite Il. intros E.
        destruct ts as [|x ts'].
        + simpl in E. subst t. simpl in Ht2. lia.
        + apply Hn2. rewrite E. apply last_In. discriminate.
      - apply setHas_false. rewrite Ir. intros Hin. apply Hn2.
        eapply In_skipn. exact Hin. }
    rewrite (gate_accepted_in_session clock getSystemPrompt (VString t) s1 Ia
               ltac:(rewrite Hc; exact Ht2) Hd Is).
    cbn [fst sessionState lastProcessedTranscript recentTranscripts].
    split; [exact Ia|]. split; [exact Is|].
    rewrite Hc, last_last. split; [reflexivity|].
    rewrite Ir, length_app. cbn [length].
    assert (Hnot : setHas t (evictOldest (skipn (length ts - 13) ts)) = false).
    { apply setHas_false. intros Hin. apply evictOldest_incl in Hin.
      apply Hn2. eapply In_skipn. exact Hin. }
    unfold setAdd. rewrite Hnot.
    unfold evictOldest. rewrite length_skipn.
    destruct (12 <? length ts - (length ts - 13)) eqn:E.
    + apply Nat.ltb_lt in E.
      destruct (skipn (length ts - 13) ts) as [|first rest] eqn:Ek.
      * apply (f_equal (@length str)) in Ek. rewrite length_skipn in Ek.
        simpl in Ek. lia.
      * assert (Hfirst : truthy first = true).
        { assert (Hin : In first ts)
            by (eapply In_skipn; rewrite Ek; left; reflexivity).
          destruct (proj1 (Forall_forall _ _) Hf first Hin) as [_ H4].
          apply truthy_length. lia. }
        rewrite Hfirst, setDelete_head.
        replace (length ts + 1 - 13) with (1 + (length ts - 13)) by lia.
        rewrite skipn_app.
        replace (1 + (length ts - 13) - length ts) with 0 by lia.
        rewrite <- skipn_skipn, Ek. reflexivity.
    + apply Nat.ltb_ge in E.
      replace (length ts - 13) with 0 by lia.
      replace (length ts + 1 - 13) with 0 by lia.
      reflexivity.
Qed.

(** X5: the window is first in, first out.  In a session whose window is
    empty, after any series of pairwise distinct cleaned transcripts (each of 4
    code units or more) the window holds the 13 most recent of them, or all of
    them when there are fewer, in the order they came. *)
Theorem window_keeps_most_recent transcripts s :
  active (sessionState s) = true ->
  hasSession s = true ->
  recentTranscripts s = [] ->
  lastProcessedTranscript s = [] ->
  NoDup transcripts ->
  Forall (fun t => normalForm t = true /\ 4 <= length t) transcripts ->
  recentTranscripts (submitAll clock getSystemPrompt transcripts s) =
  skipn (length transcripts - 13) transcripts.
Proof.
  intros Ha Hs Hr Hl Hn Hf.
  exact (proj2 (proj2 (proj2
    (window_after_submissions transcripts s Ha Hs Hr Hl Hn Hf)))).
Qed.

End WindowOrder.

Lemma window_keeps_most_recent_witness :
  NoDup [exampleQuestion; exampleReply] /\
  recentTranscripts
    (submitAll exampleClock unbound [exampleQuestion; exampleReply] activeState) =
  [exampleQuestion; exampleReply].
Proof.
  assert (Hn : NoDup [exampleQuestion; exampleReply]).
  { constructor; [|constructor; [intros []|constructor]].
    intros [H|[]]. discriminate H. }
  assert (Hf : Forall (fun t => normalForm t = true /\ 4 <= length t)
                 [exampleQuestion; exampleReply]).
  { repeat constructor; vm_compute; lia. }
  split; [exact Hn|].
  exact (window_keeps_most_recent exampleClock unbound
           [exampleQuestion; exampleReply] activeState
           eq_refl eq_refl eq_refl eq_refl Hn Hf).
Defined.

(** ** The other handlers *)

Section HandlerFacts.

Variable clock : nat -> N.
Variable getSystemPrompt : option PromptFunction.
Variable generateReply : GenerateRequest -> ReplyOutcome.

(** What a successful reply does to the state found when it arrives, in a
    session. *)
Lemma resume_success_in_session transcript reply s :
  truthy reply = true ->
  hasSession s = true ->
  let turn := {| timestamp := clock (clockReads s);
                 transcription := trim transcript; ai_response := trim reply |} in
  respondWithCerebras_resume clock transcript (Fulfils (Some reply)) s =
  {| currentSessionId := currentSessionId s;
     conversationHistory := conversationHistory s ++ [turn];
     sessionState := sessionState s;
     lastProcessedTranscript := lastProcessedTranscript s;
     recentTranscripts := recentTranscripts s;
     ttsQueue := if length (trim reply) <? 12 then ttsQueue s
                 else Chained (ttsQueue s) (trim reply);
     sent := sent s ++
       [UpdateResponse reply;
        SaveConversationTurn (currentSessionId s) turn (conversationHistory s ++ [turn]);
        UpdateStatus (lit "Listening...")];
     clockReads := S (clockReads s) |}.
Proof.
  intros Hr Hs. cbv zeta. unfold respondWithCerebras_resume. rewrite Hr.
  rewrite queueTtsSynthesis_spec, saveConversationTurn_spec.
  replace (hasSession (sendToRenderer (UpdateResponse reply) s)) with (hasSession s)
    by reflexivity.
  rewrite Hs.
  destruct (length (trim reply) <? 12);
    unfold sendToRenderer, set_sent, set_ttsQueue; cbn; rewrite <- ?app_assoc; reflexivity.
Qed.

(** X6: in the file as it stands ['generate-ai-response'] never answers
    [{ success: true }] and never changes the module, whatever the prompt and
    whatever the generator would answer.  In an active session with a text to
    answer, [respondWithCerebras] throws where it evaluates [getSystemPrompt]
    and the handler returns the message of the error. *)
Theorem generate_ai_response_fails_unbound prompt s :
  let result := generateAiResponse clock unbound generateReply prompt s in
  snd result = s /\
  fst result <> Success /\
  fst result =
    (if negb (active (sessionState s)) then Failure (lit "No active session")
     else if negb (truthy (promptText prompt s))
          then Failure (lit "No transcript to respond to")
          else Failure (lit "getSystemPrompt is not defined")).
Proof.
  cbv zeta. unfold generateAiResponse.
  destruct (negb (active (sessionState s)));
    [repeat split; discriminate|].
  destruct (negb (truthy (promptText prompt s)));
    repeat split; discriminate.
Qed.

(** X7: once the session is closed nothing new gets in: a transcript is
    dropped by the gate, a text message and a request for a reply are refused
    with [No active session], and the module stays exactly as the close left
    it. *)
Theorem closed_session_refuses rawTranscript text prompt s :
  let closed := deactivate s in
  handleCartesiaTranscript_request clock getSystemPrompt rawTranscript closed
    = (closed, None) /\
  handleCartesiaTranscript clock getSystemPrompt generateReply rawTranscript closed
    = closed /\
  sendTextMessage clock getSystemPrompt generateReply text closed
    = (Failure (lit "No active session"), closed) /\
  generateAiResponse clock getSystemPrompt generateReply prompt closed
    = (Failure (lit "No active session"), closed).
Proof. cbv zeta. repeat split. Qed.

(** X8: a new session forgets what was processed.  After
    ['start-new-session'], which answers with the new, non-empty session id, the
    log is empty, and in an active session any transcript whose cleaned form
    has 4 code units or more is accepted by the gate, also one that was a
    duplicate before: [respondWithCerebras] is called for it and the log then
    holds this one turn. *)
Theorem new_session_forgets_duplicates rawTranscript s :
  active (sessionState s) = true ->
  4 <= length (cleanTranscript rawTranscript) ->
  let started := startNewSession clock s in
  let s1 := snd started in
  fst started = (Success, Some (toString (clock (clockReads s)))) /\
  currentSessionId s1 = Some (toString (clock (clockReads s))) /\
  hasSession s1 = true /\
  conversationHistory s1 = [] /\
  exists call,
    snd (handleCartesiaTranscript_request clock getSystemPrompt rawTranscript s1) =
      Some (cleanTranscript rawTranscript, call) /\
    conversationHistory
      (fst (handleCartesiaTranscript_request clock getSystemPrompt rawTranscript s1)) =
      [{| timestamp := clock (S (clockReads s));
          transcription := cleanTranscript rawTranscript;
          ai_response := [] |}].
Proof.
  intros Ha Hl. cbv zeta. unfold startNewSession. cbn [fst snd].
  assert (Hs : hasSession (initializeNewSession clock s) = true)
    by apply hasSession_initializeNewSession.
  split; [reflexivity|]. split; [reflexivity|]. split; [exact Hs|].
  split; [reflexivity|].
  assert (Hd : isDuplicate (cleanTranscript rawTranscript)
                 (initializeNewSession clock s) = false).
  { unfold isDuplicate. cbn [initializeNewSession dateNow lastProcessedTranscript
                              recentTranscripts setHas existsb].
    rewrite orb_false_r. apply eqb_neq. intros E. rewrite E in Hl. simpl in Hl. lia. }
  rewrite (gate_accepted_in_session clock getSystemPrompt rawTranscript
             (initializeNewSession clock s) Ha Hl Hd Hs).
  cbn [fst snd]. eexists. split; reflexivity.
Qed.

End HandlerFacts.

(** *** The history handed to the generator *)

Lemma buildCerebrasHistory_cons turn turns s :
  buildCerebrasHistory (set_conversationHistory (turn :: turns) s) =
  (if truthy (transcription turn)
   then [{| role := User; content := transcription turn |}] else []) ++
  (if truthy (ai_response turn)
   then [{| role := Assistant; content := ai_response turn |}] else []) ++
  buildCerebrasHistory (set_conversationHistory turns s).
Proof. unfold buildCerebrasHistory. simpl. rewrite <- app_assoc. reflexivity. Qed.

Lemma buildCerebrasHistory_log s :
  buildCerebrasHistory s =
  buildCerebrasHistory (set_conversationHistory (conversationHistory s) s).
Proof. reflexivity. Qed.

(** X10: the history built for the generator has no entry with empty
    content; its user entries are the non-empty transcriptions of the log, in
    log order, its assistant entries the non-empty responses, in log order; and
    it has at most two entries per turn. *)
Theorem history_lists_nonempty_texts s :
  Forall (fun e => content e <> []) (buildCerebrasHistory s) /\
  map content (filter isUserEntry (buildCerebrasHistory s)) =
    filter truthy (map transcription (conversationHistory s)) /\
  map content (filter isAssistantEntry (buildCerebrasHistory s)) =
    filter truthy (map ai_response (conversationHistory s)) /\
  length (buildCerebrasHistory s) <= 2 * length (conversationHistory s).
Proof.
  rewrite buildCerebrasHistory_log.
  induction (conversationHistory s) as [|turn turns (A & B & C & D)].
  - repeat split; [constructor | simpl; lia].
  - rewrite buildCerebrasHistory_cons.
    destruct (transcription turn) as [|a u] eqn:Eu;
      destruct (ai_response turn) as [|b v] eqn:Ev;
      cbn [truthy app filter isUserEntry isAssistantEntry role map content length];
      rewrite ?Eu, ?Ev; cbn [truthy];
      (split; [repeat (constructor; [discriminate|]); exact A|]);
      (split; [rewrite ?B; reflexivity|]);
      (split; [rewrite ?C; reflexivity | lia]).
Qed.

Lemma new_session_forgets_duplicates_witness :
  active (sessionState questionAsked) = true /\
  4 <= length (cleanTranscript (VString exampleQuestion)) /\
  isDuplicate (cleanTranscript (VString exampleQuestion)) questionAsked = true /\
  conversationHistory (snd (startNewSession exampleClock questionAsked)) = [].
Proof.
  assert (Hl : 4 <= length (cleanTranscript (VString exampleQuestion)))
    by (vm_compute; lia).
  split; [reflexivity|]. split; [exact Hl|]. split; [reflexivity|].
  exact (proj1 (proj2 (proj2 (proj2
    (new_session_forgets_duplicates exampleClock unbound
       (VString exampleQuestion) questionAsked eq_refl Hl))))).
Defined.

Section NoResponses.

Variable clock : nat -> N.
Variable generateReply : GenerateRequest -> ReplyOutcome.

Lemma noResponses_saveConversationTurn transcription0 s :
  noResponses s -> noResponses (saveConversationTurn clock transcription0 [] s).
Proof.
  intros H. rewrite saveConversationTurn_spec. unfold noResponses.
  cbn [conversationHistory]. apply Forall_app. split.
  - destruct (hasSession s); [exact H | constructor].
  - constructor; [reflexivity | constructor].
Qed.

Lemma noResponses_handleCartesiaTranscript rawTranscript s :
  noResponses s ->
  noResponses (handleCartesiaTranscript clock unbound generateReply rawTranscript s).
Proof.
  intros H. unfold handleCartesiaTranscript.
  destruct (gate_state clock unbound rawTranscript s) as [G|(_ & _ & G)];
    rewrite G; [exact H|].
  cbn [fst snd respondWithCerebras_request unbound].
  apply (noResponses_saveConversationTurn (cleanTranscript rawTranscript)).
  exact H.
Qed.

(** X11: in the file as it stands no turn of the log ever carries a response.
    This holds when the module is loaded and is kept by every transcript, text
    message and request for a reply, whatever the generator would answer, and by
    a new session and the close of a session; so the history built for the
    generator never has an assistant entry. *)
Theorem unbound_log_has_no_responses rawTranscript text prompt s :
  noResponses initialState /\
  (noResponses s ->
   noResponses (handleCartesiaTranscript clock unbound generateReply rawTranscript s) /\
   noResponses (snd (sendTextMessage clock unbound generateReply text s)) /\
   noResponses (snd (generateAiResponse clock unbound generateReply prompt s)) /\
   noResponses (snd (startNewSession clock s)) /\
   noResponses (deactivate s) /\
   filter isAssistantEntry (buildCerebrasHistory s) = []).
Proof.
  split; [constructor|]. intros H.
  split; [apply noResponses_handleCartesiaTranscript; exact H|]. split.
  { unfold sendTextMessage.
    destruct (negb (active (sessionState s))); [exact H|].
    destruct text as [t|b]; [|exact H].
    destruct (negb (truthy t) || (length (trim t) =? 0)); [exact H|].
    apply noResponses_handleCartesiaTranscript. exact H. }
  split.
  { unfold generateAiResponse.
    destruct (negb (active (sessionState s))); [exact H|].
    destruct (negb (truthy (promptText prompt s))); exact H. }
  split; [constructor|]. split; [exact H|].
  rewrite buildCerebrasHistory_log. unfold noResponses in H.
  induction (conversationHistory s) as [|turn turns IH]; [reflexivity|].
  rewrite buildCerebrasHistory_cons.
  inversion H as [|? ? Hturn Hturns]; subst.
  rewrite Hturn. cbn [truthy app].
  destruct (truthy (transcription turn)); cbn [app filter isAssistantEntry role];
    apply IH; exact Hturns.
Qed.

End NoResponses.

Lemma unbound_log_has_no_responses_witness :
  noResponses questionAsked /\
  noResponses
    (handleCartesiaTranscript exampleClock unbound exampleGenerate
       (VString exampleReply) questionAsked) /\
  length (conversationHistory
            (handleCartesiaTranscript exampleClock unbound exampleGenerate
               (VString exampleReply) questionAsked)) = 2.
Proof.
  assert (W : noResponses questionAsked) by (repeat constructor).
  split; [exact W|]. split; [|reflexivity].
  exact (proj1 (proj2 (unbound_log_has_no_responses exampleClock exampleGenerate
                         (VString exampleReply) (VString exampleReply) (VOther false)
                         questionAsked) W)).
Defined.

(** ** More on frames and the downmix *)

Lemma writeInt16LE_in_range buf value offset buf' :
  writeInt16LE buf value offset = Some buf' -> offset + 2 <= length buf.
Proof.
  unfold writeInt16LE.
  destruct (-32768 <=? value)%Z; [|discriminate].
  destruct (value <=? 32767)%Z; [|discriminate].
  destruct (offset + 2 <=? length buf) eqn:E; [|discriminate].
  intros _. apply Nat.leb_le. exact E.
Qed.

Lemma convertLoop_short_mono count : forall i stereoBuffer monoBuffer,
  0 < count ->
  length monoBuffer < (i + count) * 2 ->
  convertLoop count i stereoBuffer monoBuffer = None.
Proof.
  induction count as [|count IH]; intros i stereoBuffer monoBuffer Hc Hl; [lia|].
  simpl.
  destruct (readInt16LE stereoBuffer (i * 4)) as [leftSample|]; [|reflexivity].
  destruct (writeInt16LE monoBuffer leftSample (i * 2)) as [written|] eqn:Ew;
    [|reflexivity].
  pose proof (writeInt16LE_in_range _ _ _ _ Ew) as Hw.
  pose proof (length_writeInt16LE _ _ _ _ Ew) as Hk.
  destruct count as [|count']; [lia|].
  apply IH; [lia|]. rewrite Hk. lia.
Qed.

(** X12: [convertStereoToMono] needs whole sample pairs.  On a buffer whose
    length is a multiple of 4 it returns a buffer of half the length whose
    samples are the left samples of the pairs; on any other buffer it throws
    (a [RangeError] of the last read or write). *)
Theorem convertStereoToMono_whole_pairs stereoBuffer :
  if length stereoBuffer mod 4 =? 0
  then exists mono,
         convertStereoToMono stereoBuffer = Some mono /\
         length mono = length stereoBuffer / 2 /\
         forall j, j < length stereoBuffer / 4 ->
           readInt16LE mono (j * 2) = readInt16LE stereoBuffer (j * 4)
  else convertStereoToMono stereoBuffer = None.
Proof.
  pose proof (Nat.div_mod_eq (length stereoBuffer) 4) as D.
  pose proof (Nat.mod_upper_bound (length stereoBuffer) 4 ltac:(lia)) as M.
  destruct (length stereoBuffer mod 4 =? 0) eqn:E.
  - apply Nat.eqb_eq in E.
    destruct (convertStereoToMono_left (length stereoBuffer / 4) stereoBuffer)
      as (mono & A & B & C); [lia|].
    exists mono. split; [exact A|]. split; [|exact C].
    rewrite B.
    apply (Nat.div_unique (length stereoBuffer) 2 _ 0); lia.
  - apply Nat.eqb_neq in E. unfold convertStereoToMono.
    apply convertLoop_short_mono.
    + assert (Hq : (length stereoBuffer + 3) / 4 = S (length stereoBuffer / 4)).
      { symmetry.
        apply (Nat.div_unique _ 4 _ (length stereoBuffer mod 4 - 1)); lia. }
      rewrite Hq. lia.
    + rewrite length_alloc.
      assert (Hq : (length stereoBuffer + 3) / 4 = S (length stereoBuffer / 4)).
      { symmetry.
        apply (Nat.div_unique _ 4 _ (length stereoBuffer mod 4 - 1)); lia. }
      rewrite Hq.
      pose proof (Nat.div_mod_eq (length stereoBuffer) 2) as D2.
      pose proof (Nat.mod_upper_bound (length stereoBuffer) 2 ltac:(lia)) as M2.
      lia.
Qed.

(** X13: the downmix of the other copy of the file.  On a buffer of [n]
    sample pairs it returns [n] samples, each the mean of its pair rounded to
    the nearest integer, a half going up; the result is within the signed 16-bit
    range, so the clamp changes nothing. *)
Theorem Revised_downmix_rounded_mean n stereoBuffer :
  length stereoBuffer = 4 * n ->
  exists mono,
    Revised.convertStereoToMono stereoBuffer = Some mono /\
    length mono = 2 * n /\
    forall j, j < n ->
      exists leftSample rightSample monoSample,
        readInt16LE stereoBuffer (j * 4) = Some leftSample /\
        readInt16LE stereoBuffer (j * 4 + 2) = Some rightSample /\
        readInt16LE mono (j * 2) = Some monoSample /\
        (leftSample + rightSample <= 2 * monoSample <= leftSample + rightSample + 1)%Z /\
        (-32768 <= monoSample <= 32767)%Z /\
        monoSample = Revised.roundHalf (leftSample + rightSample).
Proof.
  intros Hl.
  destruct (Revised_convertStereoToMono_mean n stereoBuffer Hl) as (mono & A & B & C).
  exists mono. split; [exact A|]. split; [exact B|].
  intros j Hj. destruct (C j Hj) as (l & r & Rl & Rr & Rm).
  exists l, r, (Revised.monoSampleOf l r).
  pose proof (readInt16LE_range _ _ _ Rl) as Bl.
  pose proof (readInt16LE_range _ _ _ Rr) as Br.
  destruct (Revised_monoSampleOf_mean l r Bl Br) as (E & R & Mn).
  split; [exact Rl|]. split; [exact Rr|]. split; [exact Rm|].
  split; [exact Mn|]. split; [exact R|].
  rewrite E. reflexivity.
Qed.

Lemma Revised_downmix_rounded_mean_witness :
  length [xff; x7f; x00; x80] = 4 * 1 /\
  exists mono,
    Revised.convertStereoToMono [xff; x7f; x00; x80] = Some mono /\
    length mono = 2 * 1.
Proof.
  split; [reflexivity|].
  destruct (Revised_downmix_rounded_mean 1 [xff; x7f; x00; x80] eq_refl)
    as (mono & A & B & _).
  exists mono. split; [exact A | exact B].
Defined.

Section CaptureMore.

Variable toBase64 : Buffer -> str.

#[local] Opaque CHUNK_SIZE maxBufferSize.

Lemma length_concat_frames (frames : list Buffer) size :
  Forall (fun frame => length frame = size) frames ->
  length (concat frames) = size * length frames.
Proof.
  induction 1 as [|frame frames Hf _ IH]; [simpl; lia|].
  simpl. rewrite length_app, IH, Hf. lia.
Qed.

(** X14: whatever the listener had buffered, after a ['data'] event it keeps
    less than one frame, and no byte is lost or sent twice: the bytes buffered
    before plus the bytes received are the frames handed on, [CHUNK_SIZE] bytes
    each, plus the bytes kept.  The guard on the size of the buffer never
    cuts. *)
Theorem onData_accounts_for_every_byte data c :
  let c' := onData toBase64 data c in
  length (audioBuffer c') < CHUNK_SIZE /\
  length (enqueued c) <= length (enqueued c') /\
  length (audioBuffer c) + length data =
    CHUNK_SIZE * (length (enqueued c') - length (enqueued c)) + length (audioBuffer c').
Proof.
  cbv zeta.
  destruct (onData_split toBase64 data c) as (frames & B & F & R & M).
  apply (f_equal (@length (option str))) in M.
  rewrite length_app, !length_map in M.
  apply (f_equal (@length byte)) in B.
  rewrite !length_app, (length_concat_frames frames CHUNK_SIZE F) in B.
  split; [exact R|]. split; [lia|].
  replace (length (enqueued (onData toBase64 data c)) - length (enqueued c))
    with (@length Buffer frames) by lia.
  exact B.
Qed.

Lemma map_Some_injective (a b : list str) : map Some a = map Some b -> a = b.
Proof.
  revert b. induction a as [|x a IH]; intros [|y b] H; try discriminate; [reflexivity|].
  simpl in H. injection H as -> H. f_equal. exact (IH _ H).
Qed.

(** X15: what the listener hands on and what it keeps depend on the bytes of
    the stream only, not on how the stream is cut into chunks. *)
Theorem feed_independent_of_chunking chunks1 chunks2 :
  concat chunks1 = concat chunks2 ->
  enqueued (feed toBase64 chunks1 startCapture) =
    enqueued (feed toBase64 chunks2 startCapture) /\
  audioBuffer (feed toBase64 chunks1 startCapture) =
    audioBuffer (feed toBase64 chunks2 startCapture).
Proof.
  intros E.
  destruct (feed_split toBase64 chunks1 startCapture) as (f1 & B1 & F1 & R1 & M1).
  destruct (feed_split toBase64 chunks2 startCapture) as (f2 & B2 & F2 & R2 & M2).
  change (audioBuffer startCapture) with (@nil byte) in B1, R1, B2, R2.
  change (enqueued startCapture) with (@nil str) in M1, M2.
  rewrite app_nil_l in B1, B2.
  change (map Some []) with (@nil (option str)) in M1, M2.
  rewrite app_nil_l in M1, M2.
  specialize (R1 CHUNK_SIZE_pos). specialize (R2 CHUNK_SIZE_pos).
  destruct (split_unique _ CHUNK_SIZE_pos f1 _ _ B1 F1 R1) as (A1 & C1 & _).
  destruct (split_unique _ CHUNK_SIZE_pos f2 _ _ B2 F2 R2) as (A2 & C2 & _).
  split.
  - apply map_Some_injective. rewrite M1, M2, A1, A2, E. reflexivity.
  - rewrite C1, C2, E. reflexivity.
Qed.

End CaptureMore.

Lemma feed_independent_of_chunking_witness :
  concat [[x01; x02]; [x03]] = concat [[x01]; [x02; x03]] /\
  audioBuffer (feed (fun _ => []) [[x01; x02]; [x03]] startCapture) =
  audioBuffer (feed (fun _ => []) [[x01]; [x02; x03]] startCapture).
Proof.
  split; [reflexivity|].
  exact (proj2 (feed_independent_of_chunking (fun _ => [])
                  [[x01; x02]; [x03]] [[x01]; [x02; x03]] eq_refl)).
Defined.

(** ** The speech service *)

Lemma collapseFrom_keeps (c : N) s : forall b,
  isWhiteSpace c = false -> In c s -> In c (collapseFrom b s).
Proof.
  induction s as [|x r IH]; intros b Hc Hin; [contradiction|].
  simpl. destruct Hin as [->|Hin].
  - rewrite Hc. left. reflexivity.
  - destruct (isWhiteSpace x).
    + destruct b; [apply IH; assumption | right; apply IH; assumption].
    + right. apply IH; assumption.
Qed.

Lemma trimStart_keeps (c : N) s :
  isWhiteSpace c = false -> In c s -> In c (trimStart s).
Proof.
  intros Hc. induction s as [|x r IH]; intros Hin; [contradiction|].
  simpl. destruct (isWhiteSpace x) eqn:Ex; [|exact Hin].
  destruct Hin as [->|Hin]; [congruence | exact (IH Hin)].
Qed.

Lemma trim_keeps (c : N) s :
  isWhiteSpace c = false -> In c s -> In c (trim s).
Proof.
  intros Hc Hin. unfold trim, trimEnd. rewrite <- in_rev.
  apply trimStart_keeps; [exact Hc|]. rewrite <- in_rev.
  apply trimStart_keeps; assumption.
Qed.

Lemma trim_head s :
  match trim s with
  | c :: _ => isWhiteSpace c = false
  | [] => True
  end.
Proof.
  unfold trim. pose proof (trimStart_head s) as Hh.
  remember (trimStart s) as t eqn:Et. clear Et.
  destruct (trimEnd_split t) as [spaces [Es _]].
  destruct (trimEnd t) as [|c r]; [exact I|].
  rewrite Es in Hh. exact Hh.
Qed.

Lemma trimEnd_fixed s : endsWithWhiteSpace s = false -> trimEnd s = s.
Proof.
  unfold endsWithWhiteSpace, trimEnd. intros H.
  rewrite trimStart_fixed; [apply rev_involutive|].
  destruct (rev s); [exact I | exact H].
Qed.

Lemma trim_idempotent s : trim (trim s) = trim s.
Proof.
  unfold trim at 1. rewrite (trimStart_fixed (trim s)) by apply trim_head.
  apply trimEnd_fixed. unfold trim. apply endsWithWhiteSpace_trimEnd.
Qed.

Lemma truthy_trim_has_text s :
  truthy (trim s) = true -> exists c, In c (trim s) /\ isWhiteSpace c = false.
Proof.
  intros Ht. pose proof (trim_head s) as Hh.
  destruct (trim s) as [|c r]; [discriminate|].
  exists c. split; [left; reflexivity | exact Hh].
Qed.

Lemma cleanTranscript_has_text (c : N) s :
  isWhiteSpace c = false -> In c s -> cleanTranscript (VString s) <> [].
Proof.
  intros Hc Hin E.
  assert (H : In c (cleanTranscript (VString s))).
  { unfold cleanTranscript, replaceWhiteSpaceRuns.
    apply trim_keeps; [exact Hc|]. apply collapseFrom_keeps; assumption. }
  rewrite E in H. exact H.
Qed.

Lemma joinWith_In sep (part : str) parts (c : N) :
  In part parts -> In c part -> In c (joinWith sep parts).
Proof.
  induction parts as [|p rest IH]; intros Hp Hc; [contradiction|].
  simpl. destruct rest as [|q rest'].
  - destruct Hp as [->|[]]. exact Hc.
  - apply in_or_app. destruct Hp as [->|Hp]; [left; exact Hc|].
    right. apply in_or_app. right. apply IH; assumption.
Qed.

Section SpeechServiceFacts.

Import Cartesia.

Lemma deliverFinals_spec texts : forall sv,
  deliverFinals texts sv =
  {| sttWs := sttWs sv; isStreaming := isStreaming sv;
     batchSegments := batchSegments sv ++ keptSegments texts;
     batchTimer := match keptSegments texts with [] => batchTimer sv | _ => true end;
     pendingSend := pendingSend sv;
     emitted := emitted sv ++ map FinalTranscript (keptSegments texts) |}.
Proof.
  induction texts as [|text texts IH]; intros sv.
  - simpl. rewrite !app_nil_r. destruct sv; reflexivity.
  - unfold deliverFinals in *. cbn [fold_left]. rewrite IH.
    unfold keptSegments. cbn [map filter handleSttMessage].
    destruct (truthy (trim match text with Some t => t | None => [] end)) eqn:E;
      cbn [negb].
    + unfold enqueueBatch. rewrite E. cbn.
      rewrite <- !app_assoc. cbn.
      destruct (filter truthy _); reflexivity.
    + reflexivity.
Qed.

(** X16: final transcripts go out one by one as they come, trimmed, the
    blank ones dropped, and, once the timer fires, all together in one batch:
    the segments joined by single spaces and cleaned like a transcript.  The
    batch is then empty and the timer gone, so the batch is not emitted twice. *)
Theorem finals_then_one_batch texts sv :
  batchSegments sv = [] ->
  keptSegments texts <> [] ->
  let sv1 := deliverFinals texts sv in
  let sv2 := batchTimerFires sv1 in
  emitted sv1 = emitted sv ++ map FinalTranscript (keptSegments texts) /\
  batchTimer sv1 = true /\
  emitted sv2 =
    emitted sv1 ++
    [TranscriptBatch (cleanTranscript (VString (joinWith [32%N] (keptSegments texts))))] /\
  cleanTranscript (VString (joinWith [32%N] (keptSegments texts))) <> [] /\
  batchSegments sv2 = [] /\
  batchTimer sv2 = false /\
  batchTimerFires sv2 = sv2.
Proof.
  intros Hb Hk. cbv zeta.
  assert (Hne : cleanTranscript (VString (joinWith [32%N] (keptSegments texts))) <> []).
  { destruct (keptSegments texts) as [|k ks] eqn:Ek; [congruence|].
    assert (Hin : In k (keptSegments texts)) by (rewrite Ek; left; reflexivity).
    unfold keptSegments in Hin. apply filter_In in Hin as [Hin Ht].
    apply in_map_iff in Hin as (text & Et & _). rewrite <- Et in Ht.
    destruct (truthy_trim_has_text _ Ht) as (c & Hc & Hw). rewrite Et in Hc.
    apply (cleanTranscript_has_text c); [exact Hw|].
    apply (joinWith_In _ k); [left; reflexivity | exact Hc]. }
  rewrite deliverFinals_spec, Hb. cbn [app].
  set (combined := cleanTranscript (VString (joinWith [32%N] (keptSegments texts)))) in *.
  assert (Hy : truthy combined = true)
    by (destruct combined; [congruence | reflexivity]).
  destruct (keptSegments texts) as [|k ks] eqn:Ek; [congruence|].
  unfold batchTimerFires, flushBatch.
  cbn [batchTimer batchSegments length Nat.eqb].
  change (trim (replaceWhiteSpaceRuns (joinWith [32%N] (k :: ks)))) with combined.
  rewrite Hy. cbn.
  repeat split; try reflexivity. exact Hne.
Qed.

Lemma batchInvariant_emit e sv : batchInvariant sv -> batchInvariant (emit e sv).
Proof. intros H. exact H. Qed.

Lemma batchInvariant_flushed sv : batchInvariant (snd (flushBatch sv)).
Proof.
  unfold flushBatch. destruct (length (batchSegments sv) =? 0) eqn:E.
  - cbn [snd]. unfold batchInvariant. cbn [setBatch batchTimer batchSegments].
    rewrite E. split; [reflexivity|].
    apply Nat.eqb_eq in E. destruct (batchSegments sv); [constructor | discriminate].
  - cbn [snd]. split; [reflexivity | constructor].
Qed.

(** X17: the batch and its timer stay in step.  Through every message of the
    recognizer, the firing of the timer, a reset, the end of a stop and the
    enqueueing of audio, a timeout is pending exactly while segments wait in the
    batch, and the waiting segments are trimmed and not empty. *)
Theorem batch_and_timer_in_step message fromBase64 base64Data sv :
  batchInvariant newService /\
  (batchInvariant sv ->
   batchInvariant (handleSttMessage message sv) /\
   batchInvariant (batchTimerFires sv) /\
   batchInvariant (resetBatch sv) /\
   batchInvariant (stopTranscription_end sv) /\
   batchInvariant (snd (enqueueBase64Audio fromBase64 base64Data sv))).
Proof.
  split; [split; [reflexivity | constructor]|].
  intros H.
  split; [|split; [|split; [|split]]].
  - destruct message as [text isFinal| | | | |]; cbn [handleSttMessage];
      try exact H; try (apply batchInvariant_emit; exact H).
    + destruct (truthy (trim match text with Some t => t | None => [] end)) eqn:E;
        cbn [negb]; [|exact H].
      destruct isFinal; [|apply batchInvariant_emit; exact H].
      unfold enqueueBatch. rewrite E. cbn [negb].
      destruct H as [_ Hf]. split.
      * cbn [setBatch batchTimer batchSegments emit].
        rewrite length_app. cbn [length].
        symmetry. apply negb_true_iff, Nat.eqb_neq. lia.
      * cbn [setBatch batchSegments emit]. apply Forall_app. split; [exact Hf|].
        constructor; [|constructor]. split; [exact E | apply trim_idempotent].
    + pose proof (batchInvariant_flushed sv) as F0.
      destruct (flushBatch sv) as [combined sv1]. cbn [snd] in F0.
      apply batchInvariant_emit.
      destruct (truthy combined); [apply batchInvariant_emit|]; exact F0.
  - unfold batchTimerFires. destruct (batchTimer sv); [|exact H].
    pose proof (batchInvariant_flushed sv) as F0.
    destruct (flushBatch sv) as [combined sv1]. cbn [snd] in F0.
    destruct (truthy combined); [apply batchInvariant_emit|]; exact F0.
  - split; [reflexivity | constructor].
  - unfold stopTranscription_end. destruct (sttWs sv); [|exact H].
    split; [reflexivity | constructor].
  - destruct base64Data as [data|b]; cbn [enqueueBase64Audio snd]; [|exact H].
    destruct (negb (truthy data)); [exact H|].
    unfold enqueueAudioChunk.
    destruct (negb (sttWs sv) || (length (fromBase64 data) =? 0)); exact H.
Qed.

(** X18: the [done] message of the recognizer closes the batch.  The waiting
    segments go out in one [transcript-complete], if their combined text is
    not empty, followed by [stt-complete]; the batch is empty afterwards and no
    timeout is left, so the timer emits nothing later. *)
Theorem done_closes_batch sv :
  let sv1 := handleSttMessage Done sv in
  emitted sv1 =
    emitted sv ++
    (if truthy (fst (flushBatch sv))
     then [TranscriptComplete (fst (flushBatch sv))] else []) ++
    [SttComplete] /\
  (fst (flushBatch sv) =
     if length (batchSegments sv) =? 0 then []
     else cleanTranscript (VString (joinWith [32%N] (batchSegments sv)))) /\
  batchSegments sv1 = [] /\
  batchTimer sv1 = false /\
  batchTimerFires sv1 = sv1.
Proof.
  cbv zeta. cbn [handleSttMessage]. unfold flushBatch.
  destruct (length (batchSegments sv) =? 0) eqn:E.
  - apply Nat.eqb_eq in E. cbn. 
    destruct (batchSegments sv); [|discriminate].
    repeat split.
  - cbn [fst].
    change (trim (replaceWhiteSpaceRuns (joinWith [32%N] (batchSegments sv))))
      with (cleanTranscript (VString (joinWith [32%N] (batchSegments sv)))).
    destruct (truthy (cleanTranscript (VString (joinWith [32%N] (batchSegments sv)))));
      cbn; rewrite <- ?app_assoc; repeat split.
Qed.

End SpeechServiceFacts.

Lemma finals_then_one_batch_witness :
  Cartesia.batchSegments Cartesia.newService = [] /\
  Cartesia.keptSegments [Some (lit " hello "); None; Some (lit "world")] <> [] /\
  Cartesia.emitted
    (Cartesia.batchTimerFires
       (Cartesia.deliverFinals [Some (lit " hello "); None; Some (lit "world")]
          Cartesia.newService)) =
  [Cartesia.FinalTranscript (lit "hello"); Cartesia.FinalTranscript (lit "world");
   Cartesia.TranscriptBatch (lit "hello world")].
Proof.
  assert (Hk : Cartesia.keptSegments [Some (lit " hello "); None; Some (lit "world")] <> [])
    by (vm_compute; discriminate).
  destruct (finals_then_one_batch [Some (lit " hello "); None; Some (lit "world")]
              Cartesia.newService eq_refl Hk) as (A & _ & C & _).
  split; [reflexivity|]. split; [exact Hk|].
  rewrite C, A. reflexivity.
Defined.

Lemma batch_and_timer_in_step_witness :
  Cartesia.batchInvariant Cartesia.newService /\
  Cartesia.batchInvariant
    (Cartesia.handleSttMessage (Cartesia.Transcript (Some (lit "hello")) true)
       Cartesia.newService).
Proof.
  destruct (batch_and_timer_in_step
              (Cartesia.Transcript (Some (lit "hello")) true)
              (fun _ => []) (VOther false) Cartesia.newService) as [A B].
  split; [exact A|]. exact (proj1 (B A)).
Defined.

(** *** Audio chunks *)

Section AudioFacts.

Import Cartesia.

Variable send : nat -> Buffer -> bool.

Lemma settleSends_ThenSend previous chunk :
  fst (settleSends send previous) = Fulfilled ->
  settleSends send (ThenSend previous chunk) =
  (Fulfilled,
   snd (settleSends send previous) ++
   [SendStarted chunk;
    SendSettled chunk (send (startedSends (snd (settleSends send previous))) chunk)]).
Proof.
  simpl. destruct (settleSends send previous) as [r events]. simpl. intros ->.
  destruct (send (startedSends events) chunk); reflexivity.
Qed.

Lemma settleSends_fulfilled chain : fst (settleSends send chain) = Fulfilled.
Proof.
  induction chain as [|previous IH chunk]; [reflexivity|].
  rewrite (settleSends_ThenSend previous chunk IH). reflexivity.
Qed.

Lemma startedSends_app a b : startedSends (a ++ b) = startedSends a + startedSends b.
Proof. unfold startedSends. rewrite filter_app, length_app. reflexivity. Qed.

Lemma enqueueChunks_cons chunk chunks sv :
  enqueueChunks (chunk :: chunks) sv =
  enqueueChunks chunks (snd (enqueueAudioChunk chunk sv)).
Proof. reflexivity. Qed.

Lemma enqueueAudioChunk_open chunk sv :
  sttWs sv = true ->
  snd (enqueueAudioChunk chunk sv) =
  if length chunk =? 0 then sv
  else {| sttWs := true; isStreaming := isStreaming sv;
          batchSegments := batchSegments sv; batchTimer := batchTimer sv;
          pendingSend := ThenSend (pendingSend sv) chunk;
          emitted := emitted sv |}.
Proof.
  intros Hw. unfold enqueueAudioChunk. rewrite Hw. cbn [negb orb].
  destruct (length chunk =? 0); reflexivity.
Qed.

Lemma enqueueChunks_spec chunks : forall sv,
  sttWs sv = true ->
  snd (settleSends send (pendingSend (enqueueChunks chunks sv))) =
  snd (settleSends send (pendingSend sv)) ++
  sendsInOrder send (startedSends (snd (settleSends send (pendingSend sv))))
    (nonEmptyChunks chunks).
Proof.
  induction chunks as [|chunk chunks IH]; intros sv Hw.
  - simpl. rewrite app_nil_r. reflexivity.
  - rewrite enqueueChunks_cons, (enqueueAudioChunk_open chunk sv Hw).
    unfold nonEmptyChunks. cbn [filter].
    destruct (length chunk =? 0); cbn [negb].
    + apply IH. exact Hw.
    + rewrite IH by reflexivity. cbn [pendingSend].
      rewrite (settleSends_ThenSend _ chunk (settleSends_fulfilled _)).
      cbn [snd sendsInOrder]. rewrite <- app_assoc, startedSends_app.
      replace (startedSends [SendStarted chunk; SendSettled chunk _]) with 1
        by reflexivity.
      rewrite Nat.add_1_r. reflexivity.
Qed.

(** X19: while a socket is held, the audio chunks handed to the service are
    sent one after the other in the order they were handed over, each after the
    send before it has settled; a send that fails does not stop the later ones;
    empty chunks are left out. *)
Theorem audio_chunks_sent_in_order chunks sv :
  sttWs sv = true ->
  let sv' := enqueueChunks chunks sv in
  snd (settleSends send (pendingSend sv')) =
    snd (settleSends send (pendingSend sv)) ++
    sendsInOrder send (startedSends (snd (settleSends send (pendingSend sv))))
      (nonEmptyChunks chunks) /\
  fst (settleSends send (pendingSend sv')) = Fulfilled.
Proof.
  intros Hw. cbv zeta.
  split; [apply enqueueChunks_spec; exact Hw | apply settleSends_fulfilled].
Qed.

(** X20: audio that arrives while no socket is held is dropped, not kept for
    later: the service answers [false] and stays as it is; this is so for
    everything that arrives once a stop has ended. *)
Theorem audio_dropped_without_socket fromBase64 base64Data buffer sv :
  let stopped := stopTranscription_end sv in
  enqueueBase64Audio fromBase64 base64Data stopped = (false, stopped) /\
  enqueueAudioChunk buffer stopped = (false, stopped) /\
  (if sttWs sv then True
   else enqueueBase64Audio fromBase64 base64Data sv = (false, sv)).
Proof.
  cbv zeta.
  assert (Hs : sttWs (stopTranscription_end sv) = false).
  { unfold stopTranscription_end. destruct (sttWs sv) eqn:E; [reflexivity | exact E]. }
  assert (Hc : forall b s0, sttWs s0 = false -> enqueueAudioChunk b s0 = (false, s0)).
  { intros b s0 H0. unfold enqueueAudioChunk. rewrite H0. reflexivity. }
  assert (Hb : forall s0, sttWs s0 = false ->
                 enqueueBase64Audio fromBase64 base64Data s0 = (false, s0)).
  { intros s0 H0. destruct base64Data as [data|b]; [|reflexivity].
    cbn [enqueueBase64Audio]. destruct (negb (truthy data)); [reflexivity|].
    apply Hc. exact H0. }
  split; [apply Hb; exact Hs|]. split; [apply Hc; exact Hs|].
  destruct (sttWs sv) eqn:E; [exact I | apply Hb; exact E].
Qed.

End AudioFacts.

Lemma audio_chunks_sent_in_order_witness :
  Cartesia.sttWs streamingService = true /\
  snd (settleSends (fun _ _ => false)
         (Cartesia.pendingSend
            (enqueueChunks [[x01]; []; [x02; x03]] streamingService))) =
  [SendStarted [x01]; SendSettled [x01] false;
   SendStarted [x02; x03]; SendSettled [x02; x03] false].
Proof.
  split; [reflexivity|].
  rewrite (proj1 (audio_chunks_sent_in_order (fun _ _ => false)
                    [[x01]; []; [x02; x03]] streamingService eq_refl)).
  reflexivity.
Defined.

(** ** Words of a cleaned transcript (the other copy) *)

Lemma wordsFrom_nonempty s : forall current,
  current <> [] -> Revised.wordsFrom current s <> [].
Proof.
  induction s as [|c r IH]; intros current Hc.
  - simpl. destruct current; [congruence | discriminate].
  - simpl. destruct (isWhiteSpace c).
    + destruct current; [congruence | discriminate].
    + apply IH. discriminate.
Qed.

Lemma endsWithWhiteSpace_cons c r :
  r <> [] -> endsWithWhiteSpace (c :: r) = endsWithWhiteSpace r.
Proof.
  intros Hr. unfold endsWithWhiteSpace. simpl.
  destruct (rev r) as [|x l] eqn:E.
  - apply (f_equal (@rev N)) in E. rewrite rev_involutive in E. simpl in E. congruence.
  - reflexivity.
Qed.

Lemma wordsFrom_rejoin s : forall current,
  singleSpaced (match current with [] => true | _ :: _ => false end) s = true ->
  endsWithWhiteSpace s = false ->
  joinWith [32%N] (Revised.wordsFrom current s) = rev current ++ s.
Proof.
  induction s as [|c r IH]; intros current Hs He.
  - simpl. rewrite app_nil_r. destruct current; reflexivity.
  - cbn [Revised.wordsFrom]. cbn [singleSpaced] in Hs.
    destruct (isWhiteSpace c) eqn:Ec.
    + apply andb_true_iff in Hs as [Hs Hr]. apply andb_true_iff in Hs as [Hb H32].
      apply N.eqb_eq in H32. subst c.
      destruct current as [|x current']; [discriminate|].
      destruct r as [|c' r'].
      { unfold endsWithWhiteSpace in He. simpl in He. congruence. }
      assert (He' : endsWithWhiteSpace (c' :: r') = false)
        by (rewrite <- He; symmetry; apply endsWithWhiteSpace_cons; discriminate).
      pose proof (IH [] Hr He') as J. cbn [rev app] in J.
      assert (Hne : Revised.wordsFrom [] (c' :: r') <> []).
      { cbn [Revised.wordsFrom]. cbn [singleSpaced] in Hr.
        destruct (isWhiteSpace c'); [discriminate|].
        apply wordsFrom_nonempty. discriminate. }
      destruct (Revised.wordsFrom [] (c' :: r')) as [|w ws] eqn:Ew; [congruence|].
      cbn [joinWith]. cbn [joinWith] in J. rewrite J. reflexivity.
    + assert (He' : endsWithWhiteSpace r = false).
      { destruct r as [|c' r']; [reflexivity|].
        rewrite <- He. symmetry. apply endsWithWhiteSpace_cons. discriminate. }
      rewrite (IH (c :: current)).
      * cbn [rev]. rewrite <- app_assoc. reflexivity.
      * destruct current; exact Hs.
      * exact He'.
Qed.

(** X21: in the other copy, the words counted for a cleaned transcript are
    its parts between the spaces: joined again with single spaces they give the
    cleaned transcript back, and none of them is empty or holds white space. *)
Theorem cleaned_transcript_words_rejoin rawTranscript :
  joinWith [32%N] (Revised.words (cleanTranscript rawTranscript)) =
    cleanTranscript rawTranscript /\
  Forall (fun word => word <> [] /\ forallb (fun c => negb (isWhiteSpace c)) word = true)
    (Revised.words (cleanTranscript rawTranscript)).
Proof.
  split.
  - pose proof (normalForm_cleanTranscript rawTranscript) as H.
    unfold normalForm in H. apply andb_true_iff in H as [H1 H2].
    apply negb_true_iff in H2.
    exact (wordsFrom_rejoin _ [] H1 H2).
  - unfold Revised.words.
    assert (G : forall s current,
              forallb (fun c => negb (isWhiteSpace c)) current = true ->
              Forall (fun word => word <> [] /\
                        forallb (fun c => negb (isWhiteSpace c)) word = true)
                (Revised.wordsFrom current s)).
    { induction s as [|c r IH]; intros current Hc.
      - simpl. destruct current as [|x l]; [constructor|].
        constructor; [|constructor]. split.
        + intros E. apply (f_equal (@length N)) in E.
          rewrite length_rev in E. discriminate.
        + rewrite forallb_forall in *. intros y Hy. apply Hc.
          apply in_rev. exact Hy.
      - simpl. destruct (isWhiteSpace c) eqn:Ec.
        + destruct current as [|x l]; [apply IH; reflexivity|].
          constructor; [|apply IH; reflexivity]. split.
          * intros E. apply (f_equal (@length N)) in E.
            rewrite length_rev in E. discriminate.
          * rewrite forallb_forall in *. intros y Hy. apply Hc.
            apply in_rev. exact Hy.
        + apply IH. simpl. rewrite Ec. exact Hc. }
    apply G. reflexivity.
Qed.

(** X22: the decision of the other copy.  A manual input always gets a
    reply; without the manual mark no reply is generated when automatic replies
    are off, nor for a transcript shorter than 15 code units, whatever the
    patterns say. *)
Theorem Revised_no_reply_when_off_or_short regexTest toLowerCase transcript auto :
  Revised.shouldGenerateResponse regexTest toLowerCase transcript true auto = true /\
  (negb auto || (length transcript <? 15) = true ->
   Revised.shouldGenerateResponse regexTest toLowerCase transcript false auto = false).
Proof.
  split; [reflexivity|]. intros H.
  unfold Revised.shouldGenerateResponse.
  destruct (negb auto); [reflexivity|].
  simpl in H. rewrite H.
  destruct (_ && _); reflexivity.
Qed.

Lemma Revised_no_reply_when_off_or_short_witness :
  negb true || (length (lit "hello there") <? 15) = true /\
  Revised.shouldGenerateResponse (fun _ _ => false) (fun s => s)
    (lit "hello there") false true = false /\
  Revised.shouldGenerateResponse (fun _ _ => true) (fun s => s)
    (lit "I am going to share my screen now") true true = true.
Proof.
  split; [reflexivity|]. split.
  - exact (proj2 (Revised_no_reply_when_off_or_short (fun _ _ => false) (fun s => s)
                    (lit "hello there") true) eq_refl).
  - exact (proj1 (Revised_no_reply_when_off_or_short (fun _ _ => true) (fun s => s)
                    (lit "I am going to share my screen now") true)).
Defined.

(** ** Audio content from the renderer *)

(** X23: ['send-audio-content'] answers [{ success: true }] in an active
    session whatever becomes of the chunk, also when the service drops it
    because it holds no socket; in a session that is not active it answers
    [No active session] and the service is not touched. *)
Theorem audio_content_reports_success fromBase64 data s sv :
  (if active (sessionState s)
   then fst (sendAudioContent fromBase64 data s sv) = Success
   else sendAudioContent fromBase64 data s sv = (Failure (lit "No active session"), sv)) /\
  (if Cartesia.sttWs sv then True
   else snd (sendAudioContent fromBase64 data s sv) = sv).
Proof.
  unfold sendAudioContent. split.
  - destruct (active (sessionState s)); cbn [negb]; [|reflexivity].
    destruct data; reflexivity.
  - destruct (Cartesia.sttWs sv) eqn:E; [exact I|].
    destruct (active (sessionState s)); cbn [negb]; [|reflexivity].
    destruct data as [d|b]; [|reflexivity].
    cbn [snd Cartesia.enqueueBase64Audio].
    destruct (negb (truthy d)); [reflexivity|].
    unfold Cartesia.enqueueAudioChunk. rewrite E. reflexivity.
Qed.

(** ** The texts waiting for synthesis *)

Section QueueFacts.

Variable clock : nat -> N.
Variable getSystemPrompt : option PromptFunction.

Lemma queueInvariant_same s s' :
  ttsQueue s' = ttsQueue s -> queueInvariant s -> queueInvariant s'.
Proof. unfold queueInvariant. intros ->. auto. Qed.

Lemma queueInvariant_queueTtsSynthesis text s :
  queueInvariant s -> queueInvariant (queueTtsSynthesis text s).
Proof.
  intros H. destruct text as [t|b]; [|exact H].
  rewrite queueTtsSynthesis_spec.
  destruct (length (trim t) <? 12) eqn:E; [exact H|].
  apply Nat.ltb_ge in E. unfold queueInvariant. cbn [set_ttsQueue ttsQueue chainTexts].
  apply Forall_app. split; [exact H|]. constructor; [|constructor].
  split; [apply trim_idempotent | exact E].
Qed.

Lemma ttsQueue_saveConversationTurn transcription0 aiResponse s :
  ttsQueue (saveConversationTurn clock transcription0 aiResponse s) = ttsQueue s.
Proof. rewrite saveConversationTurn_spec. destruct (hasSession s); reflexivity. Qed.

(** X24: only trimmed texts of 12 code units or more are ever chained for
    synthesis, whatever the replies are.  A new session, the gate and the end
    of a session leave the queue as it is: what was queued is not dropped. *)
Theorem queued_texts_trimmed_and_long rawTranscript transcript outcome text s :
  queueInvariant initialState /\
  ttsQueue (initializeNewSession clock s) = ttsQueue s /\
  ttsQueue (deactivate s) = ttsQueue s /\
  ttsQueue (fst (handleCartesiaTranscript_request clock getSystemPrompt rawTranscript s))
    = ttsQueue s /\
  (queueInvariant s ->
   queueInvariant (queueTtsSynthesis text s) /\
   queueInvariant (respondWithCerebras_resume clock transcript outcome s)).
Proof.
  split; [constructor|]. split; [reflexivity|]. split; [reflexivity|]. split.
  - destruct (gate_state clock getSystemPrompt rawTranscript s) as [G|(_ & _ & G)];
      rewrite G; cbn [fst]; [reflexivity|].
    rewrite respondWithCerebras_request_state.
    destruct getSystemPrompt;
      [change (ttsQueue (sendToRenderer ?m ?x)) with (ttsQueue x)|];
      rewrite ttsQueue_saveConversationTurn; reflexivity.
  - intros H. split; [apply queueInvariant_queueTtsSynthesis; exact H|].
    unfold respondWithCerebras_resume.
    assert (S1 : forall m s0, queueInvariant s0 -> queueInvariant (sendToRenderer m s0))
      by (intros m s0 W; exact W).
    destruct outcome as [[reply|]|]; try (apply S1; exact H).
    destruct (truthy reply); [|apply S1; exact H].
    apply S1, queueInvariant_queueTtsSynthesis.
    apply (queueInvariant_same (sendToRenderer (UpdateResponse reply) s));
      [apply ttsQueue_saveConversationTurn | apply S1; exact H].
Qed.

End QueueFacts.

Lemma queued_texts_trimmed_and_long_witness :
  queueInvariant questionAsked /\
  queueInvariant
    (respondWithCerebras_resume exampleClock exampleQuestion
       (Fulfils (Some exampleReply)) questionAsked) /\
  chainTexts
    (ttsQueue (respondWithCerebras_resume exampleClock exampleQuestion
                 (Fulfils (Some exampleReply)) questionAsked)) = [exampleReply].
Proof.
  assert (W : queueInvariant questionAsked) by constructor.
  split; [exact W|]. split; [|reflexivity].
  exact (proj2 (proj2 (proj2 (proj2 (proj2
    (queued_texts_trimmed_and_long exampleClock unbound
       (VString exampleQuestion) exampleQuestion (Fulfils (Some exampleReply))
       (VString exampleReply) questionAsked)))) W)).
Defined.

(** ** Speaker results *)

Lemma formatSpeakerResults_from results : forall text,
  fold_left
    (fun text result =>
       if hasSpeakerLine result
       then text ++ lit "[" ++ speakerLabel result ++ lit "]: "
                 ++ match resultTranscript result with Some t => t | None => [] end
                 ++ [10%N]
       else text)
    results text =
  text ++ concat (map speakerLine (filter hasSpeakerLine results)).
Proof.
  induction results as [|result results IH]; intros text.
  - simpl. rewrite app_nil_r. reflexivity.
  - cbn [fold_left filter]. rewrite IH.
    destruct (hasSpeakerLine result); [|reflexivity].
    cbn [map concat]. unfold speakerLine. rewrite <- !app_assoc. reflexivity.
Qed.

(** X25: [formatSpeakerResults] writes one line per result that has a
    non-empty transcript and a speaker id other than 0, in order, and skips the
    others; the line is [[Interviewer]: ] for speaker 1 and [[Candidate]: ] for
    every other speaker, followed by the transcript and a line feed.  So the
    text of two lists one after the other is the two texts one after the
    other. *)
Theorem formatSpeakerResults_lines results more :
  formatSpeakerResults results =
    concat (map speakerLine (filter hasSpeakerLine results)) /\
  formatSpeakerResults (results ++ more) =
    formatSpeakerResults results ++ formatSpeakerResults more /\
  Forall (fun result =>
            exists transcript id,
              resultTranscript result = Some transcript /\ transcript <> [] /\
              speakerId result = Some id /\ id <> 0%Z /\
              speakerLine result =
                lit "[" ++ (if (id =? 1)%Z then lit "Interviewer" else lit "Candidate")
                  ++ lit "]: " ++ transcript ++ [10%N])
    (filter hasSpeakerLine results).
Proof.
  assert (E : forall l, formatSpeakerResults l =
                        concat (map speakerLine (filter hasSpeakerLine l))).
  { intros l. unfold formatSpeakerResults. rewrite formatSpeakerResults_from.
    reflexivity. }
  split; [apply E|]. split.
  - rewrite !E, filter_app, map_app, concat_app. reflexivity.
  - apply Forall_forall. intros result Hin. apply filter_In in Hin as [_ H].
    unfold hasSpeakerLine in H.
    destruct (resultTranscript result) as [transcript|] eqn:Et; [|discriminate].
    destruct (speakerId result) as [id|] eqn:Ei; [|discriminate].
    apply andb_true_iff in H as [H1 H2]. apply negb_true_iff, Z.eqb_neq in H2.
    exists transcript, id. split; [reflexivity|]. split.
    + intros ->. discriminate.
    + split; [reflexivity|]. split; [exact H2|].
      unfold speakerLine, speakerLabel. rewrite Et, Ei.
      destruct id as [|p|p]; try reflexivity.
      destruct p; reflexivity.
Qed.

(** ** The language of the recognizer *)

Lemma beforeFirst_split sep s :
  ~ In sep (beforeFirst sep s) /\
  exists rest, s = beforeFirst sep s ++ rest /\
               match rest with [] => True | c :: _ => c = sep end.
Proof.
  induction s as [|c r [A (rest & E & H)]].
  - split; [intros [] | exists []; split; [reflexivity | exact I]].
  - simpl. destruct (c =? sep)%N eqn:Ec.
    + apply N.eqb_eq in Ec. subst c.
      split; [intros []|]. exists (sep :: r). split; reflexivity.
    + apply N.eqb_neq in Ec. split.
      * intros [Hc|Hc]; [congruence | exact (A Hc)].
      * exists rest. split; [simpl; f_equal; exact E | exact H].
Qed.

(** X26: the language stored for the recognizer is the part of the given
    language before its first hyphen, so it holds no hyphen ([en-US] gives
    [en]); a language that is absent or empty gives [en]. *)
Theorem language_without_region language :
  ~ In 45%N (normalizeLanguage language) /\
  (match language with
   | Some l =>
       if truthy l
       then exists rest, l = normalizeLanguage language ++ rest /\
                         match rest with [] => True | c :: _ => c = 45%N end
       else normalizeLanguage language = lit "en"
   | None => normalizeLanguage language = lit "en"
   end) /\
  normalizeLanguage (Some (lit "en-US")) = lit "en".
Proof.
  unfold normalizeLanguage. split; [apply beforeFirst_split|]. split; [|reflexivity].
  destruct language as [l|]; [|reflexivity].
  destruct (truthy l); [apply beforeFirst_split | reflexivity].
Qed.
